(** * The BERT notebook of dltemplate

    [src/text_classification_benchmarks/notebooks/BERT.ipynb] is a Jupyter
    notebook: a list of markdown and code cells, run top to bottom.

    Definitions
    - [Ast], [Notebook]: Python syntax trees and the code cells, transcribed
      cell by cell.
    - [Analysis]: imports, call sites, constants, paths, control flow and
      the uses of a name, computed from the cells.
    - [Loops]: the two per-utterance prediction loops and the summary
      cells as functions in a state-and-exception monad; the library calls
      they make are an interface.
    - [Trace]: the calls of every execution, as an over-approximating
      relation on the syntax.
    - [Steps], [Repo]: kinds of processing step; the README's entries and
      what belongs to the repository.
    - [Demo]: a small instance of the library interface.
    - [Names]: the names each statement reads and binds.
    - [Straight]: the calls of code without loops and branches.
    - [Results]: the cells that print an evaluation result.

    Properties
    - [LoopFacts]: the loops read at most 200 rows, keep their tally, and
      never print the smile.
    - [TraceFacts]: every call of every run is a call site.
    - [NotebookFacts]: what the notebook imports, reads, calls and
      defines.
    - [ResultsFacts]: evaluation results are printed sorted by key.
    - [OrderFacts]: the order of calls in every run.
    - [NamesFacts]: names are bound before they are read. *)

From Stdlib Require Import String Ascii List ZArith NArith Bool Lia.
From Stdlib Require Import Sorting Permutation.
Import ListNotations.
Open Scope string_scope.
Open Scope list_scope.

Set Warnings "-register-all".

(** ** Python syntax, as far as the notebook needs it *)

Module Ast.

Inductive cmpop := CmpEq | CmpNotEq.

Inductive expr :=
| Name (x : string)
| Str (s : string)
| Num (n : Z)
| Float (literal : string)
| NoneC
| BoolC (b : bool)
| Attr (e : expr) (a : string)
| Call (f : expr) (args : list expr) (kwargs : list (string * expr))
| Subscript (e : expr) (i : expr)
| SliceTo (e : expr) (hi : expr)          (* e[:hi] *)
| ListE (es : list expr)
| Compare (op : cmpop) (a b : expr)
| IfExp (c a b : expr)                    (* a if c else b *)
| Lambda (params : list string) (body : expr).

Inductive target :=
| TName (x : string)
| TAttr (e : expr) (a : string)
| TSubscript (e : expr) (i : expr).

Inductive stmt :=
| Import (module : string) (asname : option string)
| ImportFrom (module : string) (names : list string)
| Assign (t : target) (e : expr)
| AugAdd (t : target) (e : expr)          (* t += e *)
| ExprS (e : expr)
| For (vars : list string) (iter : expr) (body : list stmt)
| With (ctx : expr) (asname : string) (body : list stmt)
| If (c : expr) (body : list stmt) (orelse : list stmt)
| While (c : expr) (body : list stmt)
| Try (body : list stmt) (handlers : list stmt)
| FunctionDef (name : string) (params : list string) (body : list stmt)
| ClassDef (name : string) (body : list stmt).

Inductive cell :=
| Markdown
| Code (src : list stmt).

(** [qual ["tf"; "gfile"; "Open"]] is the dotted name [tf.gfile.Open]. *)
Fixpoint qual_from (e : expr) (rest : list string) : expr :=
  match rest with
  | [] => e
  | a :: rest' => qual_from (Attr e a) rest'
  end.

Definition qual (path : list string) : expr :=
  match path with
  | [] => NoneC
  | x :: rest => qual_from (Name x) rest
  end.

(** The dotted name an expression spells, when it is one. *)
Fixpoint dotted (e : expr) : option (list string) :=
  match e with
  | Name x => Some [x]
  | Attr e' a =>
      match dotted e' with
      | Some p => Some (p ++ [a])
      | None => None
      end
  | _ => None
  end.

(** All sub-expressions of an expression, itself first, in source order. *)
Fixpoint subexprs (e : expr) : list expr :=
  e ::
  match e with
  | Name _ | Str _ | Num _ | Float _ | NoneC | BoolC _ => []
  | Attr e' _ => subexprs e'
  | Call f args kwargs =>
      subexprs f ++ flat_map subexprs args
      ++ flat_map (fun kv => match kv with (_, v) => subexprs v end) kwargs
  | Subscript e' i => subexprs e' ++ subexprs i
  | SliceTo e' hi => subexprs e' ++ subexprs hi
  | ListE es => flat_map subexprs es
  | Compare _ a b => subexprs a ++ subexprs b
  | IfExp c a b => subexprs c ++ subexprs a ++ subexprs b
  | Lambda _ body => subexprs body
  end.

Definition target_exprs (t : target) : list expr :=
  match t with
  | TName _ => []
  | TAttr e _ => subexprs e
  | TSubscript e i => subexprs e ++ subexprs i
  end.

(** All statements nested in a statement, itself first. *)
Fixpoint substmts (s : stmt) : list stmt :=
  s ::
  match s with
  | Import _ _ | ImportFrom _ _ | Assign _ _ | AugAdd _ _ | ExprS _ => []
  | For _ _ body => flat_map substmts body
  | With _ _ body => flat_map substmts body
  | If _ body orelse => flat_map substmts body ++ flat_map substmts orelse
  | While _ body => flat_map substmts body
  | Try body handlers => flat_map substmts body ++ flat_map substmts handlers
  | FunctionDef _ _ body => flat_map substmts body
  | ClassDef _ body => flat_map substmts body
  end.

(** The expressions a statement holds directly (not those of nested
    statements). *)
Definition own_exprs (s : stmt) : list expr :=
  match s with
  | Import _ _ | ImportFrom _ _ => []
  | Assign t e | AugAdd t e => target_exprs t ++ subexprs e
  | ExprS e => subexprs e
  | For _ iter _ => subexprs iter
  | With ctx _ _ => subexprs ctx
  | If c _ _ | While c _ => subexprs c
  | Try _ _ | FunctionDef _ _ _ | ClassDef _ _ => []
  end.

Definition code_of (c : cell) : list stmt :=
  match c with
  | Markdown => []
  | Code src => src
  end.

Definition all_stmts (nb : list cell) : list stmt :=
  flat_map substmts (flat_map code_of nb).

Definition all_exprs (nb : list cell) : list expr :=
  flat_map own_exprs (all_stmts nb).

End Ast.

(** ** The notebook, cell by cell *)

Module Notebook.
Import Ast.

(** Where the notebook lives in the repository. *)
Definition notebook_dir : list string :=
  ["src"; "text_classification_benchmarks"; "notebooks"].

(* In [1] *)
Definition cell_imports : cell := Code
  [ Import "csv" None;
    Import "numpy" (Some "np");
    Import "os" None;
    Import "sys" None;
    Import "tensorflow" (Some "tf") ].

(* In [2] *)
Definition cell_sys_path : cell := Code
  [ ExprS (Call (qual ["sys"; "path"; "append"]) [Str "/Users/d777710/src/bert"] []);
    ExprS (Call (qual ["sys"; "path"; "append"]) [Str "../.."] []) ].

(* In [3] *)
Definition cell_metrics_import : cell := Code
  [ ImportFrom "text_classification_benchmarks.metrics"
      ["perf_summary"; "print_perf_summary"] ].

(* In [4] *)
Definition cell_dirs : cell := Code
  [ Assign (TName "DATA_DIR")
      (Str "/Users/d777710/src/DeepLearning/dltemplate/src/text_classification_benchmarks/fastai");
    Assign (TName "BERT_BASE_DIR")
      (Str "/Users/d777710/src/DeepLearning/dltemplate/pretrained_models/bert/uncased_L-12_H-768_A-12");
    Assign (TName "CODI_BERT_MODEL") (Str "/Users/d777710/src/bert/codiout2");
    Assign (TName "OUTPUT_DIR") (Str "/tmp/output") ].

(* In [5] *)
Definition cell_bert_imports : cell := Code
  [ Import "modeling" None;
    Import "run_classifier" (Some "clf");
    Import "tokenization" None ].

(* In [6] *)
Definition cell_verbosity : cell := Code
  [ ExprS (Call (qual ["tf"; "logging"; "set_verbosity"])
             [qual ["tf"; "logging"; "FATAL"]] []) ].

(* In [7] *)
Definition cell_max_api_calls : cell := Code
  [ Assign (TName "max_api_calls") (Num 200) ].

(* In [8] *)
Definition cell_config : cell := Code
  [ Assign (TName "config_file")
      (Call (qual ["os"; "path"; "join"]) [Name "BERT_BASE_DIR"; Str "bert_config.json"] []);
    Assign (TName "bert_config")
      (Call (qual ["modeling"; "BertConfig"; "from_json_file"]) [Name "config_file"] []) ].

(* In [9] *)
Definition cell_processor : cell := Code
  [ Assign (TName "processor") (Call (qual ["clf"; "CsvProcessor"]) [] []) ].

(* In [10] *)
Definition cell_label_list : cell := Code
  [ Assign (TName "label_list")
      (Call (qual ["processor"; "get_labels"]) [Name "DATA_DIR"] []) ].

(* In [11] *)
Definition cell_tokenizer : cell := Code
  [ Assign (TName "vocab_file")
      (Call (qual ["os"; "path"; "join"]) [Name "BERT_BASE_DIR"; Str "vocab.txt"] []);
    Assign (TName "tokenizer")
      (Call (qual ["tokenization"; "FullTokenizer"]) []
         [("vocab_file", Name "vocab_file"); ("do_lower_case", BoolC true)]) ].

(* In [12] *)
Definition cell_model_fn : cell := Code
  [ Assign (TName "init_checkpoint") (Name "CODI_BERT_MODEL");
    Assign (TName "model_fn")
      (Call (qual ["clf"; "model_fn_builder"]) []
         [("bert_config", Name "bert_config");
          ("num_labels", Call (Name "len") [Name "label_list"] []);
          ("init_checkpoint", Name "init_checkpoint");
          ("learning_rate", Float "5e-5");
          ("num_train_steps", NoneC);
          ("num_warmup_steps", NoneC);
          ("use_tpu", BoolC false);
          ("use_one_hot_embeddings", BoolC false)]) ].

(* In [13] *)
Definition cell_run_config : cell := Code
  [ Assign (TName "is_per_host")
      (qual ["tf"; "contrib"; "tpu"; "InputPipelineConfig"; "PER_HOST_V2"]);
    Assign (TName "run_config")
      (Call (qual ["tf"; "contrib"; "tpu"; "RunConfig"]) []
         [("cluster", NoneC);
          ("model_dir", Name "OUTPUT_DIR");
          ("save_checkpoints_steps", Num 1000);
          ("tpu_config",
            Call (qual ["tf"; "contrib"; "tpu"; "TPUConfig"]) []
              [("iterations_per_loop", Num 1000);
               ("num_shards", Num 8);
               ("per_host_input_for_training", Name "is_per_host")])]) ].

(* In [14] *)
Definition cell_estimator : cell := Code
  [ Assign (TName "estimator")
      (Call (qual ["tf"; "contrib"; "tpu"; "TPUEstimator"]) []
         [("use_tpu", BoolC false);
          ("model_fn", Name "model_fn");
          ("config", Name "run_config");
          ("train_batch_size", Num 32);
          ("eval_batch_size", Num 8);
          ("predict_batch_size", Num 1)]) ].

(* In [15] *)
Definition cell_max_seq_length : cell := Code
  [ Assign (TName "max_seq_length") (Num 128) ].

(* In [16] *)
Definition cell_sample_utterance : cell := Code
  [ Assign (TName "sample_utterance") (Str "How long do I have left on my plan") ].

(** The four statements that turn one utterance into a prediction; both
    per-utterance loops repeat them verbatim with [utterance] as the text. *)
Definition featurize_stmts (text : string) : list stmt :=
  [ Assign (TName "examples")
      (ListE [Call (qual ["clf"; "InputExample"]) []
                [("guid", Num 1);
                 ("text_a", Call (qual ["tokenization"; "convert_to_unicode"])
                              [Name text] [])]]);
    Assign (TName "features")
      (Call (qual ["clf"; "convert_examples_to_features"])
         [Name "examples"; Name "label_list"]
         [("max_seq_length", Name "max_seq_length"); ("tokenizer", Name "tokenizer")]);
    Assign (TName "input_fn")
      (Call (qual ["clf"; "input_fn_builder"]) []
         [("features", Name "features");
          ("seq_length", Name "max_seq_length");
          ("is_training", BoolC false);
          ("drop_remainder", BoolC false)]) ].

Definition predict_next_stmt : stmt :=
  Assign (TName "pred")
    (Call (Name "next")
       [Call (qual ["estimator"; "predict"]) [] [("input_fn", Name "input_fn")]] []).

(** The four prints of an utterance's details and the blank line. *)
Definition print_details_stmts : list stmt :=
  [ ExprS (Call (Name "print") [Str "Utterance:"; Name "utterance"] []);
    ExprS (Call (Name "print")
             [Str "Actual   :";
              Subscript (Name "classes") (Call (Name "int") [Name "label"] [])] []);
    ExprS (Call (Name "print")
             [Str "Pred     :";
              Subscript (Name "classes") (Call (Name "int") [Name "pred"] [])] []);
    ExprS (Call (Name "print")
             [IfExp (Compare CmpEq (Call (Name "int") [Name "label"] [])
                                   (Call (Name "int") [Name "pred"] []))
                    (Str ":)") (Str ":(")] []);
    ExprS (Call (Name "print") [Str ""] []) ].

(* In [17], In [18] *)
Definition cell_sample_features : cell := Code
  (firstn 2 (featurize_stmts "sample_utterance")).

Definition cell_sample_input_fn : cell := Code
  (skipn 2 (featurize_stmts "sample_utterance")).

(* In [19] *)
Definition cell_sample_predict : cell := Code
  [ Assign (TName "result")
      (Call (qual ["estimator"; "predict"]) [] [("input_fn", Name "input_fn")]) ].

(* In [20] *)
Definition cell_csv_paths : cell := Code
  [ Assign (TName "val_csv") (Str "../fastai/val.csv");
    Assign (TName "test_csv") (Str "../fastai/test.csv");
    Assign (TName "classes_txt") (Str "../fastai/classes.txt") ].

(* In [21] *)
Definition cell_classes : cell := Code
  [ Assign (TName "classes")
      (Call (qual ["np"; "genfromtxt"]) [Name "classes_txt"] [("dtype", Name "str")]) ].

(* In [ ], after In [21] *)
Definition cell_sample_print : cell := Code
  [ For ["label"] (Name "result")
      [ ExprS (Call (Name "print") [Subscript (Name "classes") (Name "label")] []) ] ].

Definition read_csv_stmts (lines csv_path : string) : list stmt :=
  [ Assign (TName lines) (ListE []);
    With (Call (qual ["tf"; "gfile"; "Open"]) [Name csv_path; Str "r"] []) "f"
      [ Assign (TName "reader") (Call (qual ["csv"; "reader"]) [Name "f"] []);
        For ["line"] (Name "reader")
          [ ExprS (Call (qual [lines; "append"]) [Name "line"] []) ] ] ].

(* In [23] *)
Definition cell_read_val : cell := Code (read_csv_stmts "val_lines" "val_csv").

(* In [ ], after In [23]: the validation prediction loop *)
Definition cell_val_loop : cell := Code
  [ Assign (TName "y_val") (ListE []);
    Assign (TName "y_val_pred") (ListE []);
    Assign (TName "incorrect") (Num 0);
    For ["label"; "utterance"] (SliceTo (Name "val_lines") (Name "max_api_calls"))
      ([ Assign (TName "y_true") (Call (Name "int") [Name "label"] []);
         ExprS (Call (qual ["y_val"; "append"]) [Name "y_true"] []) ]
       ++ featurize_stmts "utterance"
       ++ [ predict_next_stmt;
            ExprS (Call (qual ["y_val_pred"; "append"]) [Name "pred"] []);
            If (Compare CmpNotEq (Name "pred") (Name "y_true"))
              (print_details_stmts ++ [ AugAdd (TName "incorrect") (Num 1) ])
              [] ]) ].

Definition summary_stmts (title y y_pred : string) : list stmt :=
  [ ExprS (Call (Name "print") [Str title] []);
    Assign (TName "stats") (Call (Name "perf_summary") [Name y; Name y_pred] []);
    ExprS (Call (Name "print_perf_summary") [Name "stats"] [("rounded", Num 2)]) ].

(* In [25] *)
Definition cell_val_summary : cell := Code
  (summary_stmts "Dev set performance:" "y_val" "y_val_pred").

(* In [26] *)
Definition cell_read_test : cell := Code (read_csv_stmts "test_lines" "test_csv").

(* In [ ], after In [26]: the test prediction loop *)
Definition cell_test_loop : cell := Code
  [ Assign (TName "y_test") (ListE []);
    Assign (TName "y_test_pred") (ListE []);
    For ["label"; "utterance"] (SliceTo (Name "test_lines") (Num 200))
      ([ Assign (TName "y_true") (Call (Name "int") [Name "label"] []);
         ExprS (Call (qual ["y_test"; "append"]) [Name "y_true"] []) ]
       ++ featurize_stmts "utterance"
       ++ [ predict_next_stmt;
            ExprS (Call (qual ["y_test_pred"; "append"]) [Name "pred"] []) ]
       ++ print_details_stmts) ].

(* In [29] *)
Definition cell_test_summary : cell := Code
  (summary_stmts "Test set performance:" "y_test" "y_test_pred").

Definition examples_stmts (examples features getter : string) : list stmt :=
  [ Assign (TName examples)
      (Call (qual ["processor"; getter]) [Name "DATA_DIR"] []);
    Assign (TName features)
      (Call (qual ["clf"; "convert_examples_to_features"])
         [Name examples; Name "label_list"; Name "max_seq_length"; Name "tokenizer"] []) ].

Definition evaluate_stmts (input_fn features result : string) : list stmt :=
  [ Assign (TName input_fn)
      (Call (qual ["clf"; "input_fn_builder"]) []
         [("features", Name features);
          ("seq_length", Name "max_seq_length");
          ("is_training", BoolC false);
          ("drop_remainder", BoolC false)]);
    Assign (TName result)
      (Call (qual ["estimator"; "evaluate"]) []
         [("input_fn", Name input_fn); ("steps", NoneC)]) ].

Definition print_result_stmts (result : string) : list stmt :=
  [ For ["key"] (Call (Name "sorted") [Call (qual [result; "keys"]) [] []] [])
      [ ExprS (Call (Name "print")
                 [Call (Attr (Str "  {} = {}") "format")
                    [Name "key"; Subscript (Name result) (Name "key")] []] []) ] ].

(* In [30] .. In [35] *)
Definition cell_eval_examples : cell := Code
  (examples_stmts "eval_examples" "eval_features" "get_dev_examples").
Definition cell_eval : cell := Code
  (evaluate_stmts "eval_input_fn" "eval_features" "eval_result").
Definition cell_eval_print : cell := Code (print_result_stmts "eval_result").
Definition cell_test_examples : cell := Code
  (examples_stmts "test_examples" "test_features" "get_test_examples").
Definition cell_test_eval : cell := Code
  (evaluate_stmts "test_input_fn" "test_features" "test_result").
Definition cell_test_eval_print : cell := Code (print_result_stmts "test_result").

(** The whole notebook, top to bottom: two markdown cells, the code cells,
    the "Conclusions" markdown cell and a last, empty code cell. *)
Definition notebook : list cell :=
  [ Markdown; Markdown;
    cell_imports; cell_sys_path; cell_metrics_import; cell_dirs;
    cell_bert_imports; cell_verbosity; cell_max_api_calls; cell_config;
    cell_processor; cell_label_list; cell_tokenizer; cell_model_fn;
    cell_run_config; cell_estimator; cell_max_seq_length;
    cell_sample_utterance; cell_sample_features; cell_sample_input_fn;
    cell_sample_predict; cell_csv_paths; cell_classes; cell_sample_print;
    cell_read_val; cell_val_loop; cell_val_summary;
    cell_read_test; cell_test_loop; cell_test_summary;
    cell_eval_examples; cell_eval; cell_eval_print;
    cell_test_examples; cell_test_eval; cell_test_eval_print;
    Markdown; Code [] ].

(** The calls of a run of the notebook in which no loop body is entered,
    up to the first call on the estimator. *)
Definition short_run : list (list string) :=
  [ ["sys"; "path"; "append"]; ["sys"; "path"; "append"];
    ["tf"; "logging"; "set_verbosity"]; ["os"; "path"; "join"];
    ["modeling"; "BertConfig"; "from_json_file"]; ["clf"; "CsvProcessor"];
    ["processor"; "get_labels"]; ["os"; "path"; "join"];
    ["tokenization"; "FullTokenizer"]; ["len"]; ["clf"; "model_fn_builder"];
    ["tf"; "contrib"; "tpu"; "TPUConfig"]; ["tf"; "contrib"; "tpu"; "RunConfig"];
    ["tf"; "contrib"; "tpu"; "TPUEstimator"];
    ["tokenization"; "convert_to_unicode"]; ["clf"; "InputExample"];
    ["clf"; "convert_examples_to_features"]; ["clf"; "input_fn_builder"];
    ["estimator"; "predict"] ].

End Notebook.

(** ** Static analyses of a notebook *)

Module Analysis.
Import Ast.

Definition keep {A B : Type} (f : A -> option B) (l : list A) : list B :=
  flat_map (fun a => match f a with Some b => [b] | None => [] end) l.

Definition list_eqb {A : Type} (eqb : A -> A -> bool) : list A -> list A -> bool :=
  fix go (l1 l2 : list A) : bool :=
    match l1, l2 with
    | [], [] => true
    | a :: l1', b :: l2' => eqb a b && go l1' l2'
    | _, _ => false
    end.

Definition path_eqb : list string -> list string -> bool := list_eqb String.eqb.

Definition mem_str (x : string) (l : list string) : bool :=
  existsb (String.eqb x) l.

Definition mem_path (p : list string) (l : list (list string)) : bool :=
  existsb (path_eqb p) l.

(** *** Imports and the names they bind *)

Definition imported_module (s : stmt) : option string :=
  match s with
  | Import m _ | ImportFrom m _ => Some m
  | _ => None
  end.

Definition imports (nb : list cell) : list string :=
  keep imported_module (all_stmts nb).

(** First component of a dotted module name: [import a.b] binds [a]. *)
Fixpoint head_component (m : string) : string :=
  match m with
  | EmptyString => EmptyString
  | String c m' => if Ascii.eqb c "."%char then EmptyString
                   else String c (head_component m')
  end.

(** The (bound name, module) pairs of one statement. *)
Definition import_bindings (s : stmt) : list (string * string) :=
  match s with
  | Import m None => [(head_component m, m)]
  | Import m (Some a) => [(a, m)]
  | ImportFrom m names => map (fun n => (n, m)) names
  | _ => []
  end.

Definition bindings (nb : list cell) : list (string * string) :=
  flat_map import_bindings (all_stmts nb).

Fixpoint lookup (x : string) (env : list (string * string)) : option string :=
  match env with
  | [] => None
  | (y, v) :: env' => if String.eqb x y then Some v else lookup x env'
  end.

(** *** Call sites *)

Definition as_call (e : expr) : option (expr * list expr * list (string * expr)) :=
  match e with
  | Call f args kwargs => Some (f, args, kwargs)
  | _ => None
  end.

Definition call_sites (nb : list cell)
  : list (expr * list expr * list (string * expr)) :=
  keep as_call (all_exprs nb).

(** The dotted callee names of all call sites, in source order; a callee
    that is not a dotted name (a method of a literal) is listed by the
    method name alone under the root ["<value>"]. *)
Definition callee_name (f : expr) : list string :=
  match dotted f with
  | Some p => p
  | None => match f with
            | Attr _ a => ["<value>"; a]
            | _ => ["<value>"]
            end
  end.

Definition callees (nb : list cell) : list (list string) :=
  map (fun c => callee_name (fst (fst c))) (call_sites nb).

(** Calls of one dotted callee. *)
Definition calls_of (name : list string) (nb : list cell)
  : list (list expr * list (string * expr)) :=
  keep (fun c => match c with
                 | (f, args, kwargs) =>
                     if path_eqb (callee_name f) name then Some (args, kwargs) else None
                 end) (call_sites nb).

Fixpoint kwarg (k : string) (kwargs : list (string * expr)) : option expr :=
  match kwargs with
  | [] => None
  | (k', v) :: rest => if String.eqb k k' then Some v else kwarg k rest
  end.

(** *** Definitions and control flow *)

Definition is_definition (s : stmt) : bool :=
  match s with
  | FunctionDef _ _ _ | ClassDef _ _ => true
  | _ => false
  end.

Definition is_lambda (e : expr) : bool :=
  match e with
  | Lambda _ _ => true
  | _ => false
  end.

(** Number of function, class and lambda definitions in the notebook. *)
Definition definitions (nb : list cell) : nat :=
  length (filter is_definition (all_stmts nb))
  + length (filter is_lambda (all_exprs nb)).

(** An assignment that writes into an object (attribute or item) instead
    of binding a name. *)
Definition writes_into_object (s : stmt) : bool :=
  match s with
  | Assign (TName _) _ | AugAdd (TName _) _ => false
  | Assign _ _ | AugAdd _ _ => true
  | _ => false
  end.



Definition is_if (s : stmt) : bool :=
  match s with
  | If _ _ _ => true
  | _ => false
  end.


(** *** String constants and paths *)

Definition starts_with_slash (s : string) : bool :=
  match s with
  | String "/" _ => true
  | _ => false
  end.

Fixpoint ends_with_slash (s : string) : bool :=
  match s with
  | EmptyString => false
  | String c EmptyString => Ascii.eqb c "/"%char
  | String _ s' => ends_with_slash s'
  end.

(** [os.path.join(a, b)] of posixpath. *)
Definition os_path_join (a b : string) : string :=
  if starts_with_slash b then b
  else if (String.eqb a "" || ends_with_slash a)%bool then a ++ b
  else a ++ "/" ++ b.

(** The string an expression denotes when it is built from literals,
    names bound to such strings, and [os.path.join]. *)
Definition const_string (env : list (string * string)) (e : expr) : option string :=
  match e with
  | Str s => Some s
  | Name x => lookup x env
  | Call f [Str a; Str b] [] =>
      if path_eqb (callee_name f) ["os"; "path"; "join"]
      then Some (os_path_join a b) else None
  | Call f [Name x; Str b] [] =>
      if path_eqb (callee_name f) ["os"; "path"; "join"]
      then match lookup x env with
           | Some a => Some (os_path_join a b)
           | None => None
           end
      else None
  | _ => None
  end.

(** Constant propagation over the top-level statements, top to bottom;
    a later binding of a name shadows an earlier one. *)
Fixpoint propagate (env : list (string * string)) (ss : list stmt)
  : list (string * string) :=
  match ss with
  | [] => env
  | Assign (TName x) e :: ss' =>
      match const_string env e with
      | Some v => propagate ((x, v) :: env) ss'
      | None => propagate env ss'
      end
  | _ :: ss' => propagate env ss'
  end.

Definition string_constants (nb : list cell) : list (string * string) :=
  propagate [] (flat_map code_of nb).

Definition int_constant_of (x : string) (s : stmt) : option Z :=
  match s with
  | Assign (TName y) (Num n) => if String.eqb x y then Some n else None
  | _ => None
  end.

(** All integer literals a name is assigned anywhere in the notebook. *)
Definition int_constants (x : string) (nb : list cell) : list Z :=
  keep (int_constant_of x) (all_stmts nb).

(** Components of a slash-separated path. *)
Fixpoint split_slash_from (cur : string) (s : string) : list string :=
  match s with
  | EmptyString => [cur]
  | String c s' =>
      if Ascii.eqb c "/"%char then cur :: split_slash_from "" s'
      else split_slash_from (cur ++ String c "") s'
  end.

Definition split_slash (s : string) : list string := split_slash_from "" s.

(** Walk [p] from directory [cwd] (both relative to the repository root,
    [cwd] innermost component last); [None] when the walk leaves the
    repository through its root. *)
Fixpoint walk (cwd_rev : list string) (p : list string) : option (list string) :=
  match p with
  | [] => Some (rev cwd_rev)
  | c :: p' =>
      if (String.eqb c "" || String.eqb c ".")%bool then walk cwd_rev p'
      else if String.eqb c ".." then
        match cwd_rev with
        | [] => None
        | _ :: up => walk up p'
        end
      else walk (c :: cwd_rev) p'
  end.

(** A relative path read from directory [cwd], as a path from the
    repository root; [None] for an absolute path or one outside the
    repository. *)
Definition resolve (cwd : list string) (p : string) : option (list string) :=
  if starts_with_slash p then None else walk (rev cwd) (split_slash p).

Fixpoint is_prefix (d p : list string) : bool :=
  match d, p with
  | [], _ => true
  | a :: d', b :: p' => String.eqb a b && is_prefix d' p'
  | _ :: _, [] => false
  end.

(** [p], used from [cwd], names something of this repository that lies
    outside [cwd]. *)
Definition reaches_outside (cwd : list string) (p : string) : bool :=
  match resolve cwd p with
  | Some q => negb (is_prefix cwd q)
  | None => false
  end.

(** The paths appended to [sys.path]. *)
Definition sys_path_appends (nb : list cell) : list string :=
  keep (fun c => match c with
                 | ([Str p], []) => Some p
                 | _ => None
                 end) (calls_of ["sys"; "path"; "append"] nb).

(** The calls that open a data file by path, and the paths they are given,
    as constants. *)
Definition file_readers : list (list string) :=
  [ ["tf"; "gfile"; "Open"]; ["np"; "genfromtxt"]; ["open"] ].

Definition data_paths_read (nb : list cell) : list string :=
  keep (fun c => match c with
                 | (f, path :: _, _) =>
                     if mem_path (callee_name f) file_readers
                     then const_string (string_constants nb) path else None
                 | _ => None
                 end) (call_sites nb).

(** Directory of a dotted module under a [sys.path] entry:
    [a.b.c] under [entry] is [entry/a/b/c]. *)
Fixpoint split_dot_from (cur : string) (s : string) : list string :=
  match s with
  | EmptyString => [cur]
  | String c s' =>
      if Ascii.eqb c "."%char then cur :: split_dot_from "" s'
      else split_dot_from (cur ++ String c "") s'
  end.

Definition module_path (cwd : list string) (entry module : string)
  : option (list string) :=
  match resolve cwd entry with
  | Some d => Some (d ++ split_dot_from "" module)
  | None => None
  end.

(** *** Uses of a name *)

(** The expressions a statement holds directly, unexpanded. *)
Definition top_exprs (s : stmt) : list expr :=
  match s with
  | Import _ _ | ImportFrom _ _ => []
  | Assign t e | AugAdd t e =>
      match t with
      | TName _ => [e]
      | TAttr o _ => [o; e]
      | TSubscript o i => [o; i; e]
      end
  | ExprS e => [e]
  | For _ iter _ => [iter]
  | With ctx _ _ => [ctx]
  | If c _ _ | While c _ => [c]
  | Try _ _ | FunctionDef _ _ _ | ClassDef _ _ => []
  end.

(** Does [e] use the name [x] other than as the receiver of a call of one
    of the [allowed] methods?  ([x.m(...)] with [m] allowed is the only
    use that does not count; passing [x] on, aliasing it, reading another
    attribute or calling another method all do.) *)
Fixpoint stray_use (x : string) (allowed : list string) (e : expr) : bool :=
  match e with
  | Name y => String.eqb x y
  | Str _ | Num _ | Float _ | NoneC | BoolC _ => false
  | Attr e' _ => stray_use x allowed e'
  | Call f args kwargs =>
      (match f with
       | Attr (Name y) m =>
           if String.eqb x y then negb (mem_str m allowed) else false
       | _ => stray_use x allowed f
       end
       || existsb (stray_use x allowed) args
       || existsb (fun kv => match kv with (_, v) => stray_use x allowed v end) kwargs)%bool
  | Subscript e' i => (stray_use x allowed e' || stray_use x allowed i)%bool
  | SliceTo e' hi => (stray_use x allowed e' || stray_use x allowed hi)%bool
  | ListE es => existsb (stray_use x allowed) es
  | Compare _ a b => (stray_use x allowed a || stray_use x allowed b)%bool
  | IfExp c a b =>
      (stray_use x allowed c || stray_use x allowed a || stray_use x allowed b)%bool
  | Lambda _ body => stray_use x allowed body
  end.

Definition stray_uses (x : string) (allowed : list string) (nb : list cell) : bool :=
  existsb (stray_use x allowed) (flat_map top_exprs (all_stmts nb)).

(** Statements that bind the name [x]. *)
Definition binds (x : string) (s : stmt) : bool :=
  match s with
  | Assign (TName y) _ | AugAdd (TName y) _ => String.eqb x y
  | For vars _ _ => mem_str x vars
  | With _ a _ => String.eqb x a
  | Import _ _ | ImportFrom _ _ => mem_str x (map fst (import_bindings s))
  | FunctionDef n _ _ | ClassDef n _ => String.eqb x n
  | _ => false
  end.

Definition binding_sites (x : string) (nb : list cell) : list stmt :=
  filter (binds x) (all_stmts nb).

(** The methods called on the name [x], in source order. *)
Definition methods_called_on (x : string) (nb : list cell) : list string :=
  keep (fun c => match c with
                 | [y; m] => if String.eqb x y then Some m else None
                 | _ => None
                 end) (callees nb).

(** Position of the first cell that contains a statement satisfying [p]. *)
Fixpoint first_cell (p : stmt -> bool) (nb : list cell) : option nat :=
  match nb with
  | [] => None
  | c :: nb' =>
      if existsb p (flat_map substmts (code_of c)) then Some 0
      else option_map S (first_cell p nb')
  end.

Definition stmt_calls (name : list string) (s : stmt) : bool :=
  existsb (fun e => match e with
                    | Call f _ _ => path_eqb (callee_name f) name
                    | _ => false
                    end) (own_exprs s).


(** The sequence length a feature-building call is given: the keyword
    [k], or else the positional argument at index [i]. *)
Definition length_argument (k : string) (i : nat)
  (c : list expr * list (string * expr)) : option expr :=
  match kwarg k (snd c) with
  | Some e => Some e
  | None => nth_error (fst c) i
  end.

(** Root of a callee: the name before the first dot. *)
Definition root (callee : list string) : string := hd "" callee.

(** Modules and calls by which Python code starts threads or processes. *)
Definition concurrency_modules : list string :=
  ["threading"; "_thread"; "multiprocessing"; "subprocess"; "concurrent";
   "asyncio"; "queue"].

Definition process_calls : list (list string) :=
  [ ["os"; "fork"]; ["os"; "system"]; ["os"; "popen"]; ["os"; "spawnv"];
    ["os"; "execv"] ].

Definition stmt_imports (m : string) (s : stmt) : bool :=
  match imported_module s with
  | Some m' => String.eqb m m'
  | None => false
  end.

End Analysis.

(** ** The prediction loops as functions

    The loops of [cell_val_loop] and [cell_test_loop] and the two summary
    cells, statement by statement.  What the notebook calls but does not
    define (the bert library, the estimator, [int] on a string, the shared
    metrics module) is an interface; every call may raise and may change
    the world outside the notebook. *)

Module Loops.

Inductive exn :=
| ValueError        (* int() of a non-number, or a row that is not a pair *)
| IndexError        (* classes[i] out of range *)
| LibraryError.     (* anything raised inside a library call *)

Class Library := {
  World : Type;
  UText : Type;
  Example : Type;
  LabelList : Type;
  Tokenizer : Type;
  Features : Type;
  InputFn : Type;
  Estimator : Type;
  Predictions : Type;
  Stats : Type;
  (** [int(s)] for a string [s]; [None] is ValueError. *)
  py_int : string -> option Z;
  convert_to_unicode : string -> World -> (UText + exn) * World;
  InputExample : Z -> UText -> World -> (Example + exn) * World;
  convert_examples_to_features :
    list Example -> LabelList -> Z -> Tokenizer -> World -> (Features + exn) * World;
  input_fn_builder :
    Features -> Z -> bool -> bool -> World -> (InputFn + exn) * World;
  estimator_predict : Estimator -> InputFn -> World -> (Predictions + exn) * World;
  (** [next(g)] on the generator [estimator.predict] returns: the class
      index predicted for the next example, an integer (the cell after
      In [21] uses it as it is to index [classes]), so that [int(pred)] is
      [pred] and [pred != y_true] compares integers. *)
  next : Predictions -> World -> (Z + exn) * World;
  perf_summary : list Z -> list Z -> World -> (Stats + exn) * World;
  (** [print_perf_summary(stats, rounded)]: the lines it prints, then
      whether it returned or raised. *)
  print_perf_summary : Stats -> Z -> World -> list string * (unit + exn) * World
}.

Section WithLibrary.
Context {L : Library}.

(** The notebook's variables that the loops write, its standard output
    (one entry per [print] call) and the world outside. *)
Record state := mkState {
  world : World;
  stdout : list string;
  y_val : list Z;
  y_val_pred : list Z;
  incorrect : Z;
  y_test : list Z;
  y_test_pred : list Z
}.

Definition M (A : Type) : Type := state -> (A + exn) * state.

Definition ret {A} (a : A) : M A := fun st => (inl a, st).

Definition raise {A} (e : exn) : M A := fun st => (inr e, st).

Definition bind {A B} (m : M A) (k : A -> M B) : M B :=
  fun st =>
    match m st with
    | (inl a, st') => k a st'
    | (inr e, st') => (inr e, st')
    end.

(** [wp m st Q]: running [m] from [st] ends, normally or by an exception,
    in a result and state that satisfy [Q]. *)
Definition wp {A} (m : M A) (st : state) (Q : A + exn -> state -> Prop) : Prop :=
  Q (fst (m st)) (snd (m st)).

Notation "x <- m ;; k" := (bind m (fun x => k))
  (at level 61, m at next level, right associativity).
Notation "m ;; k" := (bind m (fun _ => k))
  (at level 61, right associativity).

Definition set_world (w : World) (st : state) : state :=
  mkState w (stdout st) (y_val st) (y_val_pred st) (incorrect st)
          (y_test st) (y_test_pred st).

(** A library call: runs on the world, leaves the notebook's variables. *)
Definition lib {A} (f : World -> (A + exn) * World) : M A :=
  fun st => let '(r, w) := f (world st) in (r, set_world w st).

Definition print (line : string) : M unit :=
  fun st => (inl tt,
             mkState (world st) (stdout st ++ [line]) (y_val st) (y_val_pred st)
                     (incorrect st) (y_test st) (y_test_pred st)).

Definition int_of (s : string) : M Z :=
  match py_int s with
  | Some n => ret n
  | None => raise ValueError
  end.

(** [classes[i]]: the array read by [np.genfromtxt] is given by its
    indexing function; [None] is IndexError. *)
Definition getitem (classes : Z -> option string) (i : Z) : M string :=
  match classes i with
  | Some c => ret c
  | None => raise IndexError
  end.

(** [for label, utterance in ...]: a row unpacks when it has exactly two
    fields. *)
Definition unpack2 (row : list string) : M (string * string) :=
  match row with
  | [label; utterance] => ret (label, utterance)
  | _ => raise ValueError
  end.

(** [l[:hi]] *)
Definition slice_to {A} (l : list A) (hi : Z) : list A :=
  if (0 <=? hi)%Z then firstn (Z.to_nat hi) l
  else firstn (length l - Z.to_nat (- hi)) l.

Fixpoint for_each {A} (l : list A) (body : A -> M unit) : M unit :=
  match l with
  | [] => ret tt
  | a :: l' => body a ;; for_each l' body
  end.

Definition max_api_calls : Z := 200.
Definition max_seq_length : Z := 128.

Definition set_y_val (l : list Z) : M unit := fun st =>
  (inl tt, mkState (world st) (stdout st) l (y_val_pred st) (incorrect st)
                   (y_test st) (y_test_pred st)).
Definition set_y_val_pred (l : list Z) : M unit := fun st =>
  (inl tt, mkState (world st) (stdout st) (y_val st) l (incorrect st)
                   (y_test st) (y_test_pred st)).
Definition set_incorrect (n : Z) : M unit := fun st =>
  (inl tt, mkState (world st) (stdout st) (y_val st) (y_val_pred st) n
                   (y_test st) (y_test_pred st)).
Definition set_y_test (l : list Z) : M unit := fun st =>
  (inl tt, mkState (world st) (stdout st) (y_val st) (y_val_pred st) (incorrect st)
                   l (y_test_pred st)).
Definition set_y_test_pred (l : list Z) : M unit := fun st =>
  (inl tt, mkState (world st) (stdout st) (y_val st) (y_val_pred st) (incorrect st)
                   (y_test st) l).
Definition get {A} (f : state -> A) : M A := fun st => (inl (f st), st).

Section Cells.
(** Objects bound by earlier cells. *)
Variable label_list : LabelList.
Variable tokenizer : Tokenizer.
Variable estimator : Estimator.
Variable classes : Z -> option string.

(** The statements from [examples = ...] to [pred = next(...)]. *)
Definition predict_utterance (utterance : string) : M Z :=
  text <- lib (convert_to_unicode utterance) ;;
  example <- lib (InputExample 1 text) ;;
  features <- lib (convert_examples_to_features [example] label_list
                     max_seq_length tokenizer) ;;
  input_fn <- lib (input_fn_builder features max_seq_length false false) ;;
  predictions <- lib (estimator_predict estimator input_fn) ;;
  lib (next predictions).

(** The four detail prints and the blank line. *)
Definition print_details (label utterance : string) (pred : Z) : M unit :=
  print ("Utterance: " ++ utterance) ;;
  i <- int_of label ;;
  actual <- getitem classes i ;;
  print ("Actual   : " ++ actual) ;;
  predicted <- getitem classes pred ;;
  print ("Pred     : " ++ predicted) ;;
  i' <- int_of label ;;
  print (if (i' =? pred)%Z then ":)" else ":(") ;;
  print "".

Definition val_body (row : list string) : M unit :=
  lu <- unpack2 row ;;
  let '(label, utterance) := lu in
  y_true <- int_of label ;;
  ys <- get y_val ;;
  set_y_val (ys ++ [y_true]) ;;
  pred <- predict_utterance utterance ;;
  ps <- get y_val_pred ;;
  set_y_val_pred (ps ++ [pred]) ;;
  if negb (pred =? y_true)%Z then
    print_details label utterance pred ;;
    n <- get incorrect ;;
    set_incorrect (n + 1)
  else ret tt.

Definition val_loop (rows : list (list string)) : M unit :=
  for_each rows val_body.

Definition val_cell (val_lines : list (list string)) : M unit :=
  set_y_val [] ;;
  set_y_val_pred [] ;;
  set_incorrect 0 ;;
  val_loop (slice_to val_lines max_api_calls).

(** The validation cell stopped after the [k]-th iteration of its loop
    (after the last one when the slice has fewer rows). *)
Definition val_cell_upto (k : nat) (val_lines : list (list string)) : M unit :=
  set_y_val [] ;;
  set_y_val_pred [] ;;
  set_incorrect 0 ;;
  val_loop (firstn k (slice_to val_lines max_api_calls)).

Definition test_body (row : list string) : M unit :=
  lu <- unpack2 row ;;
  let '(label, utterance) := lu in
  y_true <- int_of label ;;
  ys <- get y_test ;;
  set_y_test (ys ++ [y_true]) ;;
  pred <- predict_utterance utterance ;;
  ps <- get y_test_pred ;;
  set_y_test_pred (ps ++ [pred]) ;;
  print_details label utterance pred.

Definition test_loop (rows : list (list string)) : M unit :=
  for_each rows test_body.

Definition test_cell (test_lines : list (list string)) : M unit :=
  set_y_test [] ;;
  set_y_test_pred [] ;;
  test_loop (slice_to test_lines 200).

Definition print_lines (lines : list string) : M unit :=
  for_each lines print.

Definition summary_cell (title : string) (y y_pred : state -> list Z) : M unit :=
  print title ;;
  ys <- get y ;;
  ps <- get y_pred ;;
  stats <- lib (perf_summary ys ps) ;;
  fun st =>
    let '(lines, r, w) := print_perf_summary stats 2 (world st) in
    match print_lines lines (set_world w st) with
    | (_, st') => (r, st')
    end.

(** The cells from the validation loop to the test summary, run in order
    on the rows read from the two CSV files. *)
Definition predictions_run (val_lines test_lines : list (list string)) : M unit :=
  val_cell val_lines ;;
  summary_cell "Dev set performance:" y_val y_val_pred ;;
  test_cell test_lines ;;
  summary_cell "Test set performance:" y_test y_test_pred.

(** Number of positions at which two lists of labels differ, over their
    common length. *)
Fixpoint mismatches (ys ps : list Z) : Z :=
  match ys, ps with
  | y :: ys', p :: ps' => (if (p =? y)%Z then 0 else 1) + mismatches ys' ps'
  | _, _ => 0
  end.

(** The library calls of one prediction, [examples = ...] to
    [pred = next(...)], run from the world [w]: what they return and the
    world they leave. *)
Definition predict_from (w : World) (utterance : string) : (Z + exn) * World :=
  let '(r, s) := predict_utterance utterance (mkState w [] [] [] 0 [] []) in
  (r, world s).

(** The predictions the library returns for the utterances in order, each
    prediction starting in the world the one before left, up to the first
    that raises. *)
Fixpoint predictions (utterances : list string) (w : World) : list Z :=
  match utterances with
  | [] => []
  | utterance :: rest =>
      match predict_from w utterance with
      | (inl pred, w') => pred :: predictions rest w'
      | (inr _, _) => []
      end
  end.

(** The second field of a row. *)
Definition utterance_of (row : list string) : string := nth 1 row "".

(** [y] is [int(label)] of the row [label, utterance]. *)
Definition label_recorded (row : list string) (y : Z) : Prop :=
  exists label utterance, row = [label; utterance] /\ py_int label = Some y.

End Cells.

(** The counter agrees with the two lists: they have one length, and
    [incorrect] is the number of positions where they differ. *)
Definition tally (st : state) : Prop :=
  length (y_val st) = length (y_val_pred st) /\
  incorrect st = mismatches (y_val st) (y_val_pred st).

(** What is left of the tally when an iteration has been cut short:
    [y_val] is at most one entry ahead of [y_val_pred], and [incorrect] at
    most one behind the number of positions where they differ. *)
Definition near_tally (st : state) : Prop :=
  (length (y_val_pred st) <= length (y_val st) <= length (y_val_pred st) + 1)%nat /\
  (incorrect st <= mismatches (y_val st) (y_val_pred st) <= incorrect st + 1)%Z.

End WithLibrary.

End Loops.

(** ** Call traces of every execution

    An over-approximation of what running code can call: a for-loop runs
    its body any number of times, a condition goes either way, and an
    exception may stop the run after any call.  An event is the dotted
    name of the callee of a call that is made. *)

Module Trace.
Import Ast Analysis.

Definition event := list string.

Inductive eval : expr -> list event -> Prop :=
| eval_name x : eval (Name x) []
| eval_str s : eval (Str s) []
| eval_num n : eval (Num n) []
| eval_float l : eval (Float l) []
| eval_none : eval NoneC []
| eval_bool b : eval (BoolC b) []
| eval_attr e a t : eval e t -> eval (Attr e a) t
| eval_call f args kwargs tf ta tk :
    eval f tf -> eval_all args ta -> eval_kw kwargs tk ->
    eval (Call f args kwargs) (tf ++ ta ++ tk ++ [callee_name f])
| eval_subscript e i te ti :
    eval e te -> eval i ti -> eval (Subscript e i) (te ++ ti)
| eval_slice e hi te th :
    eval e te -> eval hi th -> eval (SliceTo e hi) (te ++ th)
| eval_list es t : eval_all es t -> eval (ListE es) t
| eval_compare op a b ta tb :
    eval a ta -> eval b tb -> eval (Compare op a b) (ta ++ tb)
| eval_ifexp_then c a b tc ta :
    eval c tc -> eval a ta -> eval (IfExp c a b) (tc ++ ta)
| eval_ifexp_else c a b tc tb :
    eval c tc -> eval b tb -> eval (IfExp c a b) (tc ++ tb)
| eval_lambda ps body : eval (Lambda ps body) []
with eval_all : list expr -> list event -> Prop :=
| eval_all_nil : eval_all [] []
| eval_all_cons e es t ts :
    eval e t -> eval_all es ts -> eval_all (e :: es) (t ++ ts)
with eval_kw : list (string * expr) -> list event -> Prop :=
| eval_kw_nil : eval_kw [] []
| eval_kw_cons k e kws t ts :
    eval e t -> eval_kw kws ts -> eval_kw ((k, e) :: kws) (t ++ ts).

Inductive eval_target : target -> list event -> Prop :=
| eval_tname x : eval_target (TName x) []
| eval_tattr e a t : eval e t -> eval_target (TAttr e a) t
| eval_tsubscript e i te ti :
    eval e te -> eval i ti -> eval_target (TSubscript e i) (te ++ ti).

Inductive exec : stmt -> list event -> Prop :=
| exec_import m a : exec (Import m a) []
| exec_import_from m ns : exec (ImportFrom m ns) []
| exec_assign t e te tt :
    eval e te -> eval_target t tt -> exec (Assign t e) (te ++ tt)
| exec_augadd t e tt te :
    eval_target t tt -> eval e te -> exec (AugAdd t e) (tt ++ te)
| exec_expr e t : eval e t -> exec (ExprS e) t
| exec_for vars iter body ti tb :
    eval iter ti -> exec_iter body tb -> exec (For vars iter body) (ti ++ tb)
| exec_with ctx a body tc tb :
    eval ctx tc -> exec_seq body tb -> exec (With ctx a body) (tc ++ tb)
| exec_if_then c body orelse tc tb :
    eval c tc -> exec_seq body tb -> exec (If c body orelse) (tc ++ tb)
| exec_if_else c body orelse tc te :
    eval c tc -> exec_seq orelse te -> exec (If c body orelse) (tc ++ te)
| exec_while c body tc tb :
    eval c tc -> exec_while_iter c body tb -> exec (While c body) (tc ++ tb)
| exec_try_ok body handlers t :
    exec_seq body t -> exec (Try body handlers) t
| exec_try_handled body handlers tb t th :
    exec_seq body tb -> firstn (length t) tb = t -> exec_seq handlers th ->
    exec (Try body handlers) (t ++ th)
| exec_def name ps body : exec (FunctionDef name ps body) []
| exec_class name body t : exec_seq body t -> exec (ClassDef name body) t
with exec_seq : list stmt -> list event -> Prop :=
| exec_seq_nil : exec_seq [] []
| exec_seq_cons s ss t ts :
    exec s t -> exec_seq ss ts -> exec_seq (s :: ss) (t ++ ts)
with exec_iter : list stmt -> list event -> Prop :=
| exec_iter_done body : exec_iter body []
| exec_iter_more body t ts :
    exec_seq body t -> exec_iter body ts -> exec_iter body (t ++ ts)
with exec_while_iter : expr -> list stmt -> list event -> Prop :=
| exec_while_done c body : exec_while_iter c body []
| exec_while_more c body tb tc ts :
    exec_seq body tb -> eval c tc -> exec_while_iter c body ts ->
    exec_while_iter c body (tb ++ tc ++ ts).

Scheme eval_mut := Minimality for eval Sort Prop
  with eval_all_mut := Minimality for eval_all Sort Prop
  with eval_kw_mut := Minimality for eval_kw Sort Prop.

Combined Scheme eval_mutind from eval_mut, eval_all_mut, eval_kw_mut.

Scheme exec_mut := Minimality for exec Sort Prop
  with exec_seq_mut := Minimality for exec_seq Sort Prop
  with exec_iter_mut := Minimality for exec_iter Sort Prop
  with exec_while_iter_mut := Minimality for exec_while_iter Sort Prop.

Combined Scheme exec_mutind
  from exec_mut, exec_seq_mut, exec_iter_mut, exec_while_iter_mut.

(** A run of the notebook, top to bottom: the code cells in order, to the
    end or until an exception stops it. *)
Definition runs (nb : list cell) (t : list event) : Prop :=
  exists full, exec_seq (flat_map code_of nb) full /\ firstn (length t) full = t.

(** The callee names of the call sites of a list of statements. *)
Definition callees_of_exprs (es : list expr) : list event :=
  keep (fun e => match e with
                 | Call f _ _ => Some (callee_name f)
                 | _ => None
                 end) es.

Definition stmt_callees (s : stmt) : list event :=
  callees_of_exprs (flat_map own_exprs (substmts s)).

Definition seq_callees (ss : list stmt) : list event :=
  callees_of_exprs (flat_map own_exprs (flat_map substmts ss)).

End Trace.

(** ** Kinds of processing step *)

Module Steps.
Import Ast Analysis.

(** The five kinds of step the notebooks are described by, and what the
    notebook's calls do besides. *)
Inductive step :=
| LoadConfig         (* loads a configuration *)
| BuildModel         (* builds the model, its tokenizer and the estimator *)
| ConvertFeatures    (* turns raw text into feature tensors *)
| RunEstimator       (* estimator.predict / estimator.evaluate *)
| PrintOutput        (* prints predictions or metrics *)
| ReadData           (* reads labels, class names or CSV rows from files *)
| ComputeMetrics     (* computes a performance summary *)
| Housekeeping.      (* sys.path, logging, path joins, builtins, list appends *)

Definition step_eqb (a b : step) : bool :=
  match a, b with
  | LoadConfig, LoadConfig | BuildModel, BuildModel
  | ConvertFeatures, ConvertFeatures | RunEstimator, RunEstimator
  | PrintOutput, PrintOutput | ReadData, ReadData
  | ComputeMetrics, ComputeMetrics | Housekeeping, Housekeeping => true
  | _, _ => false
  end.

Definition step_table : list (list string * step) :=
  [ (["modeling"; "BertConfig"; "from_json_file"], LoadConfig);
    (["clf"; "CsvProcessor"], BuildModel);
    (["tokenization"; "FullTokenizer"], BuildModel);
    (["clf"; "model_fn_builder"], BuildModel);
    (["tf"; "contrib"; "tpu"; "RunConfig"], BuildModel);
    (["tf"; "contrib"; "tpu"; "TPUConfig"], BuildModel);
    (["tf"; "contrib"; "tpu"; "TPUEstimator"], BuildModel);
    (["clf"; "InputExample"], ConvertFeatures);
    (["tokenization"; "convert_to_unicode"], ConvertFeatures);
    (["clf"; "convert_examples_to_features"], ConvertFeatures);
    (["clf"; "input_fn_builder"], ConvertFeatures);
    (["estimator"; "predict"], RunEstimator);
    (["estimator"; "evaluate"], RunEstimator);
    (["print"], PrintOutput);
    (["print_perf_summary"], PrintOutput);
    (["perf_summary"], ComputeMetrics);
    (["processor"; "get_labels"], ReadData);
    (["processor"; "get_dev_examples"], ReadData);
    (["processor"; "get_test_examples"], ReadData);
    (["np"; "genfromtxt"], ReadData);
    (["tf"; "gfile"; "Open"], ReadData);
    (["csv"; "reader"], ReadData) ].

Fixpoint step_of (callee : list string) (table : list (list string * step)) : step :=
  match table with
  | [] => Housekeeping
  | (name, k) :: table' => if path_eqb callee name then k else step_of callee table'
  end.

Definition is_processing (k : step) : bool := negb (step_eqb k Housekeeping).

(** Collapse runs of equal neighbours. *)
Fixpoint collapse (l : list step) : list step :=
  match l with
  | a :: ((b :: _) as l') => if step_eqb a b then collapse l' else a :: collapse l'
  | _ => l
  end.

(** The processing steps of the notebook in source order, top to bottom,
    a run of calls of one kind counted as one step. *)
Definition processing_steps (nb : list cell) : list step :=
  collapse (filter is_processing (map (fun c => step_of c step_table) (callees nb))).

(** Each kind once, in the order of first occurrence. *)
Fixpoint first_occurrences (seen : list step) (l : list step) : list step :=
  match l with
  | [] => []
  | a :: l' =>
      if existsb (step_eqb a) seen then first_occurrences seen l'
      else a :: first_occurrences (a :: seen) l'
  end.

(** The sequence of steps as described: each of the five kinds, once, in
    this order, and nothing else. *)
Definition described_steps : list step :=
  [LoadConfig; BuildModel; ConvertFeatures; RunEstimator; PrintOutput].

Definition is_described (k : step) : bool :=
  existsb (step_eqb k) described_steps.

End Steps.

(** ** The README's list of examples, and what lies in the repository *)

Module Repo.
Import Ast Analysis Steps.

Record entry := mkEntry { number : nat; title : string; link : string }.

(** Entries 50 to 60 of "Model Templates" in the README: the text
    classification benchmarks. *)
Definition text_classification_entries : list entry :=
  [ mkEntry 50 "Multi-class Text Classification using fastText"
      "src/text_classification_benchmarks/fasttext/";
    mkEntry 51 "Multi-class Text Classification using Fastai"
      "src/text_classification_benchmarks/fastai/";
    mkEntry 52 "Multi-class Text Classification using Logistic Regression"
      "src/text_classification_benchmarks/logreg/";
    mkEntry 53 "Multi-class Text Classification using Multinomial Naive Bayes"
      "src/text_classification_benchmarks/multinomial_naive_bayes/";
    mkEntry 54 "Multi-class Text Classification using NBSVM (SVM with Naive Bayes Features)"
      "src/text_classification_benchmarks/nbsvm/";
    mkEntry 55 "Multi-class Text Classification using BiLSTM"
      "src/text_classification_benchmarks/bi_lstm/";
    mkEntry 56 "Multi-class Text Classification using Word-level CNN"
      "src/text_classification_benchmarks/word_cnn/";
    mkEntry 57 "Multi-class Text Classification using Word-level CNN initialized with Word2Vec Embeddings"
      "src/text_classification_benchmarks/word_cnn/";
    mkEntry 58 "Multi-class Text Classification using Character-level CNN"
      "src/text_classification_benchmarks/char_cnn/";
    mkEntry 59 "Multi-class Text Classification using a Transformer Model"
      "src/text_classification_benchmarks/transformer/";
    mkEntry 60 "Multi-class Text Classification using BERT - Transfer Learning using Deep Bidirectional Transformers"
      "https://github.com/markmo/bert" ].

(** The directory an entry links to, as a path from the repository root;
    [None] for a link that leaves the repository. *)
Definition entry_dir (e : entry) : option (list string) :=
  if String.prefix "https://" (link e) || String.prefix "http://" (link e)
  then None else resolve [] (link e).

Definition example_dirs : list (list string) :=
  keep entry_dir text_classification_entries.

(** The example directory, other than [cwd], that holds path [p] used
    from [cwd]. *)
Definition sibling_example (cwd : list string) (p : string) : option (list string) :=
  match resolve cwd p with
  | Some q => find (fun d => is_prefix d q && negb (is_prefix d cwd)) example_dirs
  | None => None
  end.

(** A module imported through [sys.path] entry [entry] is known to be
    this repository's when its top-level package directory is a directory
    the notebook itself lies in. *)
Definition repository_module (cwd : list string) (entry module : string) : bool :=
  match resolve cwd entry with
  | Some d => is_prefix (d ++ [head_component module]) cwd
  | None => false
  end.

(** The imported modules that are the repository's own, shared with the
    other examples of the package. *)
Definition shared_modules (cwd : list string) (nb : list cell) : list string :=
  filter (fun m => existsb (fun entry => repository_module cwd entry m)
                     (sys_path_appends nb))
         (imports nb).

(** Independent and self-contained: no code from a shared module of the
    repository and no data file from outside the notebook's directory. *)
Definition self_contained (cwd : list string) (nb : list cell) : bool :=
  match shared_modules cwd nb with
  | [] => forallb (fun p => negb (reaches_outside cwd p)) (data_paths_read nb)
  | _ :: _ => false
  end.

(** The names bound by imports of the repository's own modules. *)
Definition shared_names (cwd : list string) (nb : list cell) : list string :=
  keep (fun b => match b with
                 | (x, m) => if mem_str m (shared_modules cwd nb) then Some x else None
                 end) (bindings nb).



(** [s] without its suffix [suffix], when it ends with it. *)
Fixpoint strip_suffix (suffix s : string) : option string :=
  if String.eqb s suffix then Some ""
  else match s with
       | EmptyString => None
       | String c s' => option_map (String c) (strip_suffix suffix s')
       end.

Fixpoint join_slash (p : list string) : string :=
  match p with
  | [] => ""
  | c :: p' => "/" ++ c ++ join_slash p'
  end.

(** The directory the repository is checked out in, read off an absolute
    path [abs] that is known to name directory [dir] of the repository. *)
Definition checkout_root (abs : string) (dir : list string) : option string :=
  strip_suffix (join_slash dir) abs.

(** Exactly the described steps, once each and in order. *)
Definition only_described_steps (nb : list cell) : bool :=
  list_eqb step_eqb (processing_steps nb) described_steps.

End Repo.

(** ** A small library instance, for running the loops on examples *)

Module Demo.
Import Loops.

Definition digit (c : ascii) : option Z :=
  let n := nat_of_ascii c in
  if (Nat.leb 48 n && Nat.leb n 57)%bool then Some (Z.of_nat (n - 48)) else None.

Fixpoint decimal_from (acc : Z) (s : string) : option Z :=
  match s with
  | EmptyString => Some acc
  | String c s' =>
      match digit c with
      | Some d => decimal_from (10 * acc + d) s'
      | None => None
      end
  end.

(** [int] on plain decimal numerals. *)
Definition decimal (s : string) : option Z :=
  match s with
  | EmptyString => None
  | _ => decimal_from 0 s
  end.

(** A stand-in estimator: it predicts the length of the utterance modulo
    three and counts its calls in the world. *)
Definition demo_library : Library := {|
  World := nat;
  UText := string;
  Example := string;
  LabelList := unit;
  Tokenizer := unit;
  Features := list string;
  InputFn := list string;
  Estimator := unit;
  Predictions := list Z;
  Stats := nat;
  py_int := decimal;
  convert_to_unicode := fun s w => (inl s, w);
  InputExample := fun _ text w => (inl text, w);
  convert_examples_to_features := fun examples _ _ _ w => (inl examples, w);
  input_fn_builder := fun features _ _ _ w => (inl features, w);
  estimator_predict := fun _ input_fn w =>
    (inl (map (fun s => Z.of_nat (String.length s) mod 3)%Z input_fn), S w);
  next := fun predictions w =>
    match predictions with
    | [] => (inr LibraryError, w)
    | z :: _ => (inl z, w)
    end;
  perf_summary := fun ys _ w => (inl (length ys), w);
  print_perf_summary := fun stats _ w => (["Accuracy"], inl tt, w)
|}.

Definition demo_classes (i : Z) : option string :=
  if (0 <=? i)%Z then nth_error ["billing"; "plan"; "usage"] (Z.to_nat i) else None.

Definition demo_state : @state demo_library :=
  @mkState demo_library 0%nat [] [] [] 0%Z [] [].

Definition demo_rows : list (list string) :=
  [ ["1"; "How long do I have left on my plan"];
    ["0"; "Why is my bill so high"];
    ["2"; "hi"] ].

End Demo.

(** ** Names read and names bound

    A pass over the cells top to bottom that collects the names a
    statement reads before any earlier statement has bound them. *)

Module Names.
Import Ast Analysis.

(** The builtins the notebook relies on. *)
Definition builtins : list string :=
  ["print"; "int"; "len"; "next"; "sorted"; "str"].

(** The names an expression reads. *)
Fixpoint reads (e : expr) : list string :=
  match e with
  | Name x => [x]
  | Str _ | Num _ | Float _ | NoneC | BoolC _ => []
  | Attr e' _ => reads e'
  | Call f args kwargs =>
      reads f ++ flat_map reads args
      ++ flat_map (fun kv => match kv with (_, v) => reads v end) kwargs
  | Subscript e' i => reads e' ++ reads i
  | SliceTo e' hi => reads e' ++ reads hi
  | ListE es => flat_map reads es
  | Compare _ a b => reads a ++ reads b
  | IfExp c a b => reads c ++ reads a ++ reads b
  | Lambda ps body => filter (fun x => negb (mem_str x ps)) (reads body)
  end.

Definition target_reads (t : target) : list string :=
  match t with
  | TName _ => []
  | TAttr e _ => reads e
  | TSubscript e i => reads e ++ reads i
  end.

Definition missing (bound names : list string) : list string :=
  filter (fun x => negb (mem_str x bound)) names.

(** [check s bound]: the names [s] reads that are not in [bound], and the
    names bound once [s] has run to its end.  A statement that raises
    outside a [try] ends the run, so nothing is read after it: the names
    of an import or an assignment count as bound for the statements after
    it, whether or not the module can be found.  What is bound only
    inside the body of a loop or a branch is not counted as bound after
    it; the variable and the body of a [with] are. *)
Fixpoint check (s : stmt) (bound : list string) : list string * list string :=
  let seq :=
    fix seq (ss : list stmt) (bound : list string) : list string * list string :=
      match ss with
      | [] => ([], bound)
      | s' :: ss' =>
          let (m, b) := check s' bound in
          let (m', b') := seq ss' b in
          (m ++ m', b')
      end in
  match s with
  | Import _ _ | ImportFrom _ _ => ([], map fst (import_bindings s) ++ bound)
  | Assign (TName x) e => (missing bound (reads e), x :: bound)
  | Assign t e => (missing bound (reads e ++ target_reads t), bound)
  | AugAdd (TName x) e => (missing bound (x :: reads e), bound)
  | AugAdd t e => (missing bound (target_reads t ++ reads e), bound)
  | ExprS e => (missing bound (reads e), bound)
  | For vars iter body =>
      (missing bound (reads iter) ++ fst (seq body (vars ++ bound)), bound)
  | With ctx a body =>
      let (m, b) := seq body (a :: bound) in
      (missing bound (reads ctx) ++ m, b)
  | If c body orelse =>
      (missing bound (reads c) ++ fst (seq body bound) ++ fst (seq orelse bound),
       bound)
  | While c body => (missing bound (reads c) ++ fst (seq body bound), bound)
  | Try body handlers => (fst (seq body bound) ++ fst (seq handlers bound), bound)
  | FunctionDef n ps body => (fst (seq body (ps ++ n :: bound)), n :: bound)
  | ClassDef n body => (fst (seq body bound), n :: bound)
  end.

Fixpoint check_seq (ss : list stmt) (bound : list string)
  : list string * list string :=
  match ss with
  | [] => ([], bound)
  | s :: ss' =>
      let (m, b) := check s bound in
      let (m', b') := check_seq ss' b in
      (m ++ m', b')
  end.

(** The names the notebook, run top to bottom, reads before they are
    bound. *)
Definition unbound_reads (nb : list cell) : list string :=
  fst (check_seq (flat_map code_of nb) builtins).

End Names.

(** ** The calls of straight-line code

    Code without loop, branch or conditional expression makes one
    sequence of calls; [straight_seq] computes it, [None] when the code is
    not of that kind. *)

Module Straight.
Import Ast Analysis Trace.

Definition app_opt (a b : option (list event)) : option (list event) :=
  match a, b with
  | Some ta, Some tb => Some (ta ++ tb)
  | _, _ => None
  end.

Definition option_concat (l : list (option (list event))) : option (list event) :=
  fold_right app_opt (Some []) l.

Fixpoint straight_expr (e : expr) : option (list event) :=
  match e with
  | Name _ | Str _ | Num _ | Float _ | NoneC | BoolC _ => Some []
  | Attr e' _ => straight_expr e'
  | Call f args kwargs =>
      app_opt (straight_expr f)
        (app_opt (option_concat (map straight_expr args))
           (app_opt (option_concat
                       (map (fun kv => match kv with (_, v) => straight_expr v end)
                            kwargs))
              (Some [callee_name f])))
  | Subscript e' i => app_opt (straight_expr e') (straight_expr i)
  | SliceTo e' hi => app_opt (straight_expr e') (straight_expr hi)
  | ListE es => option_concat (map straight_expr es)
  | Compare _ a b => app_opt (straight_expr a) (straight_expr b)
  | IfExp _ _ _ => None
  | Lambda _ _ => Some []
  end.

Definition straight_target (t : target) : option (list event) :=
  match t with
  | TName _ => Some []
  | TAttr e _ => straight_expr e
  | TSubscript e i => app_opt (straight_expr e) (straight_expr i)
  end.

Fixpoint straight_stmt (s : stmt) : option (list event) :=
  match s with
  | Import _ _ | ImportFrom _ _ => Some []
  | Assign t e => app_opt (straight_expr e) (straight_target t)
  | AugAdd t e => app_opt (straight_target t) (straight_expr e)
  | ExprS e => straight_expr e
  | With ctx _ body =>
      app_opt (straight_expr ctx) (option_concat (map straight_stmt body))
  | For _ _ _ | If _ _ _ | While _ _ | Try _ _ => None
  | FunctionDef _ _ _ => Some []
  | ClassDef _ body => option_concat (map straight_stmt body)
  end.

Definition straight_seq (ss : list stmt) : option (list event) :=
  option_concat (map straight_stmt ss).

(** The calls of the cells before the first loop of the notebook. *)
Definition first_calls : list event :=
  Notebook.short_run ++ [ ["np"; "genfromtxt"] ].

(** The calls of a run in which no loop body is entered, up to the sorting
    of the keys of the first evaluation result. *)
Definition quiet_run : list event :=
  first_calls ++
  [ ["tf"; "gfile"; "Open"]; ["csv"; "reader"];
    ["print"]; ["perf_summary"]; ["print_perf_summary"];
    ["tf"; "gfile"; "Open"]; ["csv"; "reader"];
    ["print"]; ["perf_summary"]; ["print_perf_summary"];
    ["processor"; "get_dev_examples"]; ["clf"; "convert_examples_to_features"];
    ["clf"; "input_fn_builder"]; ["estimator"; "evaluate"];
    ["eval_result"; "keys"]; ["sorted"] ].

Definition on_estimator (ev : event) : bool :=
  match ev with
  | x :: _ => String.eqb x "estimator"
  | [] => false
  end.

(** The call sites of the cells from [eval_examples = ...] on. *)
Definition evaluation_calls : list event :=
  [ ["processor"; "get_dev_examples"]; ["processor"; "get_test_examples"];
    ["clf"; "convert_examples_to_features"]; ["clf"; "input_fn_builder"];
    ["estimator"; "evaluate"]; ["sorted"]; ["eval_result"; "keys"];
    ["test_result"; "keys"]; ["print"]; ["<value>"; "format"] ].

End Straight.

(** ** Printing an evaluation result

    The cells In [32] and In [35]:
    [for key in sorted(result.keys()): print('  {} = {}'.format(key, result[key]))]
    where [result] is the dict that [estimator.evaluate] returned. *)

Module Results.
Section Dict.
(** The values of the dict and [str] on them, which is what [format]
    puts in place of [{}]. *)
Variable V : Type.
Variable show : V -> string.

(** A dict with string keys, in insertion order; a Python dict holds a
    key once. *)
Definition dict : Type := list (string * V).

Definition keys (d : dict) : list string := map fst d.

(** [d[k]]; [None] is KeyError. *)
Fixpoint getitem (d : dict) (k : string) : option V :=
  match d with
  | [] => None
  | (k', v) :: d' => if String.eqb k k' then Some v else getitem d' k
  end.

(** [sorted] on strings: ascending by code point, which on the bytes of
    UTF-8 text is the order of [String.leb]. *)
Fixpoint insert (k : string) (l : list string) : list string :=
  match l with
  | [] => [k]
  | x :: l' => if String.leb k x then k :: l else x :: insert k l'
  end.

Fixpoint sorted (l : list string) : list string :=
  match l with
  | [] => []
  | k :: l' => insert k (sorted l')
  end.

(** ['  {} = {}'.format(k, v)] *)
Definition format_line (k : string) (v : V) : string :=
  ("  " ++ k ++ " = " ++ show v)%string.

(** How the loop ended. *)
Inductive outcome := Done | KeyError (k : string).

(** The lines the loop over [ks] prints, and how it ends. *)

Fixpoint print_keys (d : dict) (ks : list string) : list string * outcome :=
  match ks with
  | [] => ([], Done)
  | k :: ks' =>
      match getitem d k with
      | None => ([], KeyError k)
      | Some v => let (lines, o) := print_keys d ks' in (format_line k v :: lines, o)
      end
  end.

Definition print_result (d : dict) : list string * outcome :=
  print_keys d (sorted (keys d)).

End Dict.
End Results.


(** * Properties *)

(** ** The prediction loops *)

Module LoopFacts.
Import Loops.

Section WithLibrary.
Context {L : Library}.

Lemma wp_bind {A B} (m : M A) (k : A -> M B) st Q :
  wp m st (fun r st' => match r with
                        | inl a => wp (k a) st' Q
                        | inr e => Q (inr e) st'
                        end) ->
  wp (bind m k) st Q.
Proof. unfold wp, bind. destruct (m st) as [[a|e] st']; simpl; auto. Qed.

Lemma wp_lib {A} (f : World -> (A + exn) * World) st
      (Q : A + exn -> state -> Prop) :
  (forall r w, Q r (set_world w st)) -> wp (lib f) st Q.
Proof. unfold wp, lib. intros H. destruct (f (world st)) as [r w]. apply H. Qed.

Lemma wp_int_of s st (Q : Z + exn -> state -> Prop) :
  (forall n, py_int s = Some n -> Q (inl n) st) ->
  (py_int s = None -> Q (inr ValueError) st) ->
  wp (int_of s) st Q.
Proof. unfold wp, int_of. destruct (py_int s); simpl; auto. Qed.

Lemma wp_getitem classes i st (Q : string + exn -> state -> Prop) :
  (forall c, classes i = Some c -> Q (inl c) st) ->
  (classes i = None -> Q (inr IndexError) st) ->
  wp (getitem classes i) st Q.
Proof. unfold wp, getitem. destruct (classes i); simpl; auto. Qed.

Lemma wp_weaken {A} (m : M A) st (Q Q' : A + exn -> state -> Prop) :
  wp m st Q -> (forall r st', Q r st' -> Q' r st') -> wp m st Q'.
Proof. unfold wp. auto. Qed.

Lemma wp_run {A} (m : M A) st r st' (Q : A + exn -> state -> Prop) :
  wp m st Q -> m st = (r, st') -> Q r st'.
Proof. unfold wp. intros H E. rewrite E in H. exact H. Qed.

Ltac wp_step :=
  lazymatch goal with
  | |- wp (bind _ _) _ _ => apply wp_bind
  | |- wp (lib _) _ _ => apply wp_lib; intros [?|?] ?
  | |- wp (int_of _) _ _ => apply wp_int_of; [intros ? ?|intros ?]
  | |- wp (getitem _ _) _ _ => apply wp_getitem; [intros ? ?|intros ?]
  | |- wp (if ?b then _ else _) _ _ => destruct b eqn:?
  | |- wp _ _ _ =>
      unfold wp at 1;
      cbn [ret raise get print set_y_val set_y_val_pred set_incorrect
           set_y_test set_y_test_pred y_val y_val_pred incorrect y_test
           y_test_pred stdout world set_world fst snd]
  end;
  cbn [y_val y_val_pred incorrect y_test y_test_pred stdout world set_world
       fst snd].

(** Closes the side conditions on the lines printed so far. *)
Ltac printed :=
  rewrite <- ?app_assoc; cbn [app];
  first [ eexists; split; [reflexivity|]
        | exists []; split; [rewrite app_nil_r; reflexivity|] ];
  split; [cbn; intuition discriminate|].

Lemma app_one_length (l : list Z) (z : Z) : length (l ++ [z]) = (length l + 1)%nat.
Proof. rewrite length_app. reflexivity. Qed.

Variable label_list : LabelList.
Variable tokenizer : Tokenizer.
Variable estimator : Estimator.
Variable classes : Z -> option string.

(** What one pass through the body of the validation loop does. *)
Lemma val_body_spec row st :
  wp (val_body label_list tokenizer estimator classes row) st (fun r st' =>
    match r with
    | inl _ =>
        exists label utterance y_true pred,
          row = [label; utterance] /\ py_int label = Some y_true /\
          y_val st' = y_val st ++ [y_true] /\
          y_val_pred st' = y_val_pred st ++ [pred] /\
          y_test st' = y_test st /\ y_test_pred st' = y_test_pred st /\
          if (pred =? y_true)%Z
          then stdout st' = stdout st /\ incorrect st' = incorrect st
          else exists actual predicted,
              classes y_true = Some actual /\ classes pred = Some predicted /\
              stdout st' = stdout st ++
                [("Utterance: " ++ utterance)%string;
                 ("Actual   : " ++ actual)%string;
                 ("Pred     : " ++ predicted)%string; ":("; ""] /\
              incorrect st' = (incorrect st + 1)%Z
    | inr _ =>
        exists delta, stdout st' = stdout st ++ delta /\ ~ In ":)" delta /\
          (length (y_val st') <= length (y_val st) + 1)%nat /\
          (length (y_val_pred st') <= length (y_val_pred st) + 1)%nat /\
          y_test st' = y_test st /\ y_test_pred st' = y_test_pred st
    end).
Proof.
  unfold val_body, predict_utterance, print_details.
  destruct row as [|label [|utterance [|x r]]]; unfold unpack2.
  1, 2, 4: apply wp_bind; unfold wp; cbn; exists []; rewrite app_nil_r;
    cbn; intuition lia.
  repeat wp_step.
  all: try congruence.
  all: try solve [printed; rewrite ?app_one_length; intuition lia].
  - (* the prediction differs and every print succeeds *)
    apply negb_true_iff in Heqb.
    assert (n0 = n) by congruence. assert (n1 = n) by congruence. subst n0 n1.
    exists label, utterance, n, z. rewrite Heqb.
    rewrite Z.eqb_sym, Heqb. rewrite <- !app_assoc. cbn [app].
    repeat split; auto. exists c, c0. auto.
  - (* the prediction is the true label *)
    apply negb_false_iff in Heqb.
    exists label, utterance, n, z. rewrite Heqb. auto 10.
Qed.

Lemma test_body_spec row st :
  wp (test_body label_list tokenizer estimator classes row) st (fun _ st' =>
    (length (y_test st') <= length (y_test st) + 1)%nat /\
    (length (y_test_pred st') <= length (y_test_pred st) + 1)%nat).
Proof.
  unfold test_body, predict_utterance, print_details.
  destruct row as [|label [|utterance [|x r]]]; unfold unpack2.
  1, 2, 4: apply wp_bind; unfold wp; cbn; lia.
  repeat wp_step.
  all: rewrite ?app_one_length; lia.
Qed.

Lemma for_each_app {A} (l1 l2 : list A) (body : A -> M unit) st :
  for_each (l1 ++ l2) body st = bind (for_each l1 body) (fun _ => for_each l2 body) st.
Proof.
  revert st. induction l1 as [|a l1 IH]; intros st.
  - reflexivity.
  - cbn [app for_each]. unfold bind.
    destruct (body a st) as [[u|e] st1]; [|reflexivity].
    rewrite IH. reflexivity.
Qed.

(** The loop over [rows] is its first [k] iterations followed by the
    remaining ones. *)
Lemma val_loop_split (k : nat) rows st :
  val_loop label_list tokenizer estimator classes rows st
  = bind (val_loop label_list tokenizer estimator classes (firstn k rows))
         (fun _ => val_loop label_list tokenizer estimator classes (skipn k rows)) st.
Proof.
  unfold val_loop. rewrite <- for_each_app, firstn_skipn. reflexivity.
Qed.

Lemma slice_to_200 {A} (l : list A) : slice_to l 200 = firstn 200 l.
Proof. reflexivity. Qed.

Lemma val_loop_bound rows st :
  wp (val_loop label_list tokenizer estimator classes rows) st (fun _ st' =>
    (length (y_val st') <= length (y_val st) + length rows)%nat /\
    (length (y_val_pred st') <= length (y_val_pred st) + length rows)%nat).
Proof.
  revert st. induction rows as [|row rows IH]; intros st.
  - unfold wp. cbn. lia.
  - unfold val_loop. cbn [for_each]. apply wp_bind.
    eapply wp_weaken; [apply val_body_spec|].
    intros [u|e] st1 H.
    + destruct H as (label & utterance & y & p & _ & _ & Hy & Hp & _).
      eapply wp_weaken; [apply IH|].
      intros _ st2 [H1 H2]. rewrite Hy, Hp, !app_one_length in *.
      cbn [length]. lia.
    + destruct H as (delta & _ & _ & H1 & H2 & _). cbn [length]. lia.
Qed.

Lemma test_loop_bound rows st :
  wp (test_loop label_list tokenizer estimator classes rows) st (fun _ st' =>
    (length (y_test st') <= length (y_test st) + length rows)%nat /\
    (length (y_test_pred st') <= length (y_test_pred st) + length rows)%nat).
Proof.
  revert st. induction rows as [|row rows IH]; intros st.
  - unfold wp. cbn. lia.
  - unfold test_loop. cbn [for_each]. apply wp_bind.
    eapply wp_weaken; [apply test_body_spec|].
    intros [u|e] st1 [H1 H2].
    + eapply wp_weaken; [apply IH|].
      intros _ st2 [H3 H4]. cbn [length]. lia.
    + cbn [length]. lia.
Qed.

Lemma mismatches_app ys ps y p :
  length ys = length ps ->
  mismatches (ys ++ [y]) (ps ++ [p])
  = (mismatches ys ps + (if (p =? y)%Z then 0 else 1))%Z.
Proof.
  revert ps. induction ys as [|y0 ys IH]; intros [|p0 ps] Hlen;
    try discriminate Hlen.
  - cbn. lia.
  - cbn [app mismatches]. rewrite IH by (cbn in Hlen; lia). lia.
Qed.

(** One completed iteration keeps the tally and appends one label and one
    prediction. *)
Lemma val_body_tally row st :
  tally st ->
  wp (val_body label_list tokenizer estimator classes row) st (fun r st' =>
    match r with
    | inl _ => tally st' /\ length (y_val st') = S (length (y_val st))
    | inr _ => True
    end).
Proof.
  intros [Hlen Hinc].
  eapply wp_weaken; [apply val_body_spec|].
  intros [u|e] st' H; [|exact I].
  destruct H as (label & utterance & y & p & _ & _ & Hy & Hp & _ & _ & H).
  unfold tally. rewrite Hy, Hp, !app_one_length, mismatches_app by exact Hlen.
  destruct (p =? y)%Z.
  - destruct H as [_ ->]. lia.
  - destruct H as (a & b & _ & _ & _ & ->). lia.
Qed.

Lemma val_loop_tally rows st :
  tally st ->
  wp (val_loop label_list tokenizer estimator classes rows) st (fun r st' =>
    match r with
    | inl _ => tally st' /\
               length (y_val st') = (length (y_val st) + length rows)%nat
    | inr _ => True
    end).
Proof.
  revert st. induction rows as [|row rows IH]; intros st Ht.
  - unfold wp. cbn. split; [exact Ht | lia].
  - unfold val_loop. cbn [for_each]. apply wp_bind.
    eapply wp_weaken; [apply val_body_tally; exact Ht|].
    intros [u|e] st1 H; [|exact I].
    destruct H as [Ht1 Hl1].
    eapply wp_weaken; [apply IH; exact Ht1|].
    intros [u'|e'] st2 H; [|exact I].
    destruct H as [Ht2 Hl2]. split; [exact Ht2|]. cbn [length]. lia.
Qed.

(** No line printed by the loop is the smile, however the loop ends. *)
Lemma val_loop_stdout rows st :
  wp (val_loop label_list tokenizer estimator classes rows) st (fun _ st' =>
    exists delta, stdout st' = stdout st ++ delta /\ ~ In ":)" delta).
Proof.
  revert st. induction rows as [|row rows IH]; intros st.
  - unfold wp. cbn. exists []. rewrite app_nil_r. auto.
  - unfold val_loop. cbn [for_each]. apply wp_bind.
    eapply wp_weaken; [apply val_body_spec|].
    intros [u|e] st1 H.
    + assert (exists d1, stdout st1 = stdout st ++ d1 /\ ~ In ":)" d1) as (d1 & E1 & N1).
      { destruct H as (label & utterance & y & p & _ & _ & _ & _ & _ & _ & H).
        destruct (p =? y)%Z.
        - exists []. rewrite app_nil_r. intuition.
        - destruct H as (a & b & _ & _ & E & _). eexists. split; [exact E|].
          cbn. intuition discriminate. }
      eapply wp_weaken; [apply IH|].
      intros _ st2 (d2 & E2 & N2). exists (d1 ++ d2).
      rewrite E2, E1, app_assoc. split; [reflexivity|].
      rewrite in_app_iff. tauto.
    + destruct H as (delta & E & N & _). eauto.
Qed.

Lemma val_cell_upto_exit k val_lines st :
  (200 <= k)%nat ->
  val_cell_upto label_list tokenizer estimator classes k val_lines st
  = val_cell label_list tokenizer estimator classes val_lines st.
Proof.
  intros Hk. unfold val_cell_upto, val_cell.
  change max_api_calls with 200%Z. rewrite slice_to_200.
  rewrite firstn_firstn. replace (Nat.min k 200) with 200%nat by lia.
  reflexivity.
Qed.

(** C7. Rows past the 200th of either CSV file never contribute: two runs
    of the cells from the validation loop to the test summary on files
    that agree on their first 200 rows end in the same result, the same
    lists [y_val], [y_val_pred], [y_test], [y_test_pred], the same printed
    lines and the same outside world; and however a loop ends, none of the
    four lists has grown beyond 200 entries. *)
Theorem rows_past_200_never_contribute
    (val_lines val_lines' test_lines test_lines' : list (list string)) (st : state) :
  firstn 200 val_lines = firstn 200 val_lines' ->
  firstn 200 test_lines = firstn 200 test_lines' ->
  predictions_run label_list tokenizer estimator classes val_lines test_lines st
  = predictions_run label_list tokenizer estimator classes val_lines' test_lines' st
  /\ (let st1 := snd (val_cell label_list tokenizer estimator classes val_lines st) in
      (length (y_val st1) <= 200)%nat /\ (length (y_val_pred st1) <= 200)%nat)
  /\ (let st2 := snd (test_cell label_list tokenizer estimator classes test_lines st) in
      (length (y_test st2) <= 200)%nat /\ (length (y_test_pred st2) <= 200)%nat).
Proof.
  intros Hval Htest. split; [|split].
  - unfold predictions_run, val_cell, test_cell.
    change max_api_calls with 200%Z. rewrite !slice_to_200, Hval, Htest.
    reflexivity.
  - change (wp (val_cell label_list tokenizer estimator classes val_lines) st
              (fun _ st1 => (length (y_val st1) <= 200)%nat
                            /\ (length (y_val_pred st1) <= 200)%nat)).
    unfold val_cell. change max_api_calls with 200%Z. rewrite slice_to_200.
    do 3 (wp_step; wp_step).
    eapply wp_weaken; [apply val_loop_bound|].
    cbn [y_val y_val_pred length]. intros _ st1 [H1 H2].
    pose proof (firstn_le_length 200 val_lines). lia.
  - change (wp (test_cell label_list tokenizer estimator classes test_lines) st
              (fun _ st2 => (length (y_test st2) <= 200)%nat
                            /\ (length (y_test_pred st2) <= 200)%nat)).
    unfold test_cell. rewrite slice_to_200.
    do 2 (wp_step; wp_step).
    eapply wp_weaken; [apply test_loop_bound|].
    cbn [y_test y_test_pred length]. intros _ st2 [H1 H2].
    pose proof (firstn_le_length 200 test_lines). lia.
Qed.

(** C9. In the validation loop a completed iteration prints the
    utterance's details exactly when the prediction differs from the true
    label, and then the status line is the frown; the smile is never
    printed by an iteration, completed or not, nor by the loop as a
    whole. *)
Theorem val_loop_prints_frown_only
    (row : list string) (rows : list (list string))
    (st : state) (r : unit + exn) (st' : state) (r_loop : unit + exn) (st_loop : state) :
  val_body label_list tokenizer estimator classes row st = (r, st') ->
  val_loop label_list tokenizer estimator classes rows st = (r_loop, st_loop) ->
  (exists delta,
      stdout st' = stdout st ++ delta /\ ~ In ":)" delta /\
      (r = inl tt ->
       exists label utterance y_true pred,
         row = [label; utterance] /\ py_int label = Some y_true /\
         y_val_pred st' = y_val_pred st ++ [pred] /\
         ((pred <> y_true /\
           exists actual predicted,
             delta = [("Utterance: " ++ utterance)%string;
                      ("Actual   : " ++ actual)%string;
                      ("Pred     : " ++ predicted)%string; ":("; ""])
          \/ (pred = y_true /\ delta = []))))
  /\ (exists delta, stdout st_loop = stdout st ++ delta /\ ~ In ":)" delta).
Proof.
  intros Hbody Hloop. split.
  - pose proof (wp_run _ _ _ _ _ (val_body_spec row st) Hbody) as H.
    destruct r as [[]|e].
    + destruct H as (label & utterance & y & p & Hrow & Hint & _ & Hp & _ & _ & H).
      destruct (p =? y)%Z eqn:E.
      * apply Z.eqb_eq in E. destruct H as [Hout _].
        exists []. rewrite app_nil_r. repeat split; auto.
        intros _. exists label, utterance, y, p. auto 10.
      * apply Z.eqb_neq in E. destruct H as (a & b & _ & _ & Hout & _).
        eexists. split; [exact Hout|]. split; [cbn; intuition discriminate|].
        intros _. exists label, utterance, y, p. repeat split; auto.
        left. split; [exact E|]. exists a, b. reflexivity.
    + destruct H as (delta & Hout & Hno & _). exists delta.
      repeat split; auto. discriminate.
  - exact (wp_run _ _ _ _ _ (val_loop_stdout rows st) Hloop).
Qed.

(** *** Further behaviour of the loops *)

(** What one pass through the body of the test loop does: when it
    completes, and how far it got when it raises. *)
Lemma test_body_report row st :
  wp (test_body label_list tokenizer estimator classes row) st (fun r st' =>
    y_val st' = y_val st /\ y_val_pred st' = y_val_pred st /\
    incorrect st' = incorrect st /\
    match r with
    | inl _ =>
        exists label utterance y_true pred actual predicted,
          row = [label; utterance] /\ py_int label = Some y_true /\
          classes y_true = Some actual /\ classes pred = Some predicted /\
          y_test st' = y_test st ++ [y_true] /\
          y_test_pred st' = y_test_pred st ++ [pred] /\
          stdout st' = stdout st ++
            [("Utterance: " ++ utterance)%string;
             ("Actual   : " ++ actual)%string;
             ("Pred     : " ++ predicted)%string;
             if (pred =? y_true)%Z then ":)" else ":("; ""]
    | inr _ =>
        exists delta, stdout st' = stdout st ++ delta /\ (length delta <= 3)%nat
    end).
Proof.
  unfold test_body, predict_utterance, print_details.
  destruct row as [|label [|utterance [|x r]]]; unfold unpack2.
  1, 2, 4: apply wp_bind; unfold wp; cbn; repeat apply conj; auto;
    exists []; rewrite app_nil_r; cbn; auto.
  repeat wp_step.
  all: try congruence.
  all: repeat apply conj; auto.
  all: try solve [ rewrite <- ?app_assoc; cbn [app];
                   first [ eexists; split; [reflexivity|cbn; lia]
                         | exists []; rewrite app_nil_r; cbn; auto ] ].
  assert (n0 = n) by congruence. assert (n1 = n) by congruence. subst n0 n1.
  exists label, utterance, n, z, c, c0. rewrite <- !app_assoc. cbn [app].
  rewrite (Z.eqb_sym z n). auto 10.
Qed.

Lemma count_details (u a p s x : string) :
  x = ":(" \/ x = ":)" ->
  count_occ string_dec
    [("Utterance: " ++ u)%string; ("Actual   : " ++ a)%string;
     ("Pred     : " ++ p)%string; s; ""] x
  = if string_dec s x then 1%nat else 0%nat.
Proof.
  intros Hx.
  rewrite !count_occ_cons_neq by (destruct Hx; subst x; cbn; discriminate).
  cbn [count_occ].
  destruct (string_dec s x); destruct (string_dec "" x) as [E|_];
    try reflexivity; destruct Hx; subst x; discriminate E.
Qed.

Ltac decide_strings :=
  repeat match goal with
         | |- context [string_dec ?a ?b] =>
             destruct (string_dec a b); try discriminate; try congruence
         end.

Lemma test_loop_report rows st :
  wp (test_loop label_list tokenizer estimator classes rows) st (fun r st' =>
    y_val st' = y_val st /\ y_val_pred st' = y_val_pred st /\
    incorrect st' = incorrect st /\
    (exists delta, stdout st' = stdout st ++ delta) /\
    match r with
    | inl _ =>
        length (y_test st') = (length (y_test st) + length rows)%nat /\
        length (y_test_pred st') = (length (y_test_pred st) + length rows)%nat /\
        exists delta,
          stdout st' = stdout st ++ delta /\
          length delta = (5 * length rows)%nat /\
          (count_occ string_dec delta ":)" + count_occ string_dec delta ":("
           = length rows)%nat /\
          (length (y_test st) = length (y_test_pred st) ->
           Z.of_nat (count_occ string_dec delta ":(")
           = (mismatches (y_test st') (y_test_pred st')
              - mismatches (y_test st) (y_test_pred st))%Z)
    | inr _ => True
    end).
Proof.
  revert st. induction rows as [|row rows IH]; intros st.
  - unfold wp. cbn. repeat apply conj; auto; try lia.
    + exists []. rewrite app_nil_r. reflexivity.
    + exists []. rewrite app_nil_r. cbn. repeat apply conj; auto. lia.
  - unfold test_loop. cbn [for_each]. apply wp_bind.
    eapply wp_weaken; [apply test_body_report|].
    intros [u|e] st1 (Fv & Fp & Fi & H).
    + destruct H as (label & utterance & y & p & a & b & _ & _ & _ & _ & Hy & Hp & Hout).
      eapply wp_weaken; [apply IH|].
      intros r st2 (Gv & Gp & Gi & (d2 & Hd2) & H2).
      rewrite Gv, Gp, Gi, Fv, Fp, Fi.
      repeat apply conj; auto.
      { rewrite Hd2, Hout, <- app_assoc. eauto. }
      destruct r as [u2|e2]; [|exact I].
      destruct H2 as (L1 & L2 & delta & Hdelta & Hlen & Hcount & Hmis).
      rewrite L1, L2, Hy, Hp, !app_one_length. cbn [length].
      repeat apply conj; try lia.
      eexists. split; [rewrite Hdelta, Hout, <- app_assoc; reflexivity|].
      rewrite length_app, !count_occ_app, !count_details by auto.
      cbn [length]. repeat apply conj.
      * lia.
      * destruct (p =? y)%Z; decide_strings; lia.
      * intros Hl. rewrite Hy, Hp, !app_one_length in Hmis.
        specialize (Hmis ltac:(lia)).
        rewrite mismatches_app in Hmis by exact Hl.
        destruct (p =? y)%Z; decide_strings; lia.
    + destruct H as (delta & Hout & _). repeat apply conj; eauto.
Qed.

Lemma val_loop_report rows st :
  wp (val_loop label_list tokenizer estimator classes rows) st (fun r st' =>
    y_test st' = y_test st /\ y_test_pred st' = y_test_pred st /\
    match r with
    | inl _ =>
        exists delta,
          stdout st' = stdout st ++ delta /\
          Z.of_nat (length delta) = (5 * (incorrect st' - incorrect st))%Z /\
          Z.of_nat (count_occ string_dec delta ":(")
          = (incorrect st' - incorrect st)%Z
    | inr _ => True
    end).
Proof.
  revert st. induction rows as [|row rows IH]; intros st.
  - unfold wp. cbn [val_loop for_each ret fst snd]. repeat apply conj; auto.
    exists []. rewrite app_nil_r. cbn [length count_occ].
    repeat apply conj; auto; lia.
  - unfold val_loop. cbn [for_each]. apply wp_bind.
    eapply wp_weaken; [apply val_body_spec|].
    intros [u|e] st1 H.
    + destruct H as (label & utterance & y & p & _ & _ & _ & _ & Ft & Fp & H).
      eapply wp_weaken; [apply IH|].
      intros r st2 (Gt & Gp & H2). rewrite Gt, Gp, Ft, Fp.
      repeat apply conj; auto.
      destruct r as [u2|e2]; [|exact I].
      destruct H2 as (delta & Hdelta & Hlen & Hcount).
      destruct (p =? y)%Z.
      * destruct H as [Hout Hinc]. exists delta.
        rewrite Hdelta, Hout, <- Hinc. auto.
      * destruct H as (a & b & _ & _ & Hout & Hinc).
        eexists. split; [rewrite Hdelta, Hout, <- app_assoc; reflexivity|].
        rewrite length_app, count_occ_app, count_details by auto.
        cbn [length]. rewrite Hinc in *. decide_strings. lia.
    + destruct H as (delta & _ & _ & _ & _ & Ft & Fp). auto.
Qed.

(** X1. When the test cell completes, [y_test] and [y_test_pred] hold one
    entry for each of the first 200 rows, the cell has made five print
    calls per row, the status print of each row was a smile or a frown, and
    the number of frowns printed as status is the number of positions at
    which the prediction differs from the true label.  (An entry of
    [stdout] is what one print call wrote; an utterance line begins with
    [Utterance:] and is never counted as a status.) *)
Theorem test_cell_report (test_lines : list (list string)) (st st' : state) :
  test_cell label_list tokenizer estimator classes test_lines st = (inl tt, st') ->
  length (y_test st') = Nat.min 200 (length test_lines)
  /\ length (y_test_pred st') = Nat.min 200 (length test_lines)
  /\ exists delta,
      stdout st' = stdout st ++ delta
      /\ length delta = (5 * length (y_test st'))%nat
      /\ (count_occ string_dec delta ":)" + count_occ string_dec delta ":("
          = length (y_test st'))%nat
      /\ Z.of_nat (count_occ string_dec delta ":(")
         = mismatches (y_test st') (y_test_pred st').
Proof.
  intros Hrun.
  assert (wp (test_cell label_list tokenizer estimator classes test_lines) st
            (fun r s =>
               match r with
               | inl _ =>
                   length (y_test s) = length (firstn 200 test_lines)
                   /\ length (y_test_pred s) = length (firstn 200 test_lines)
                   /\ exists delta,
                       stdout s = stdout st ++ delta
                       /\ length delta = (5 * length (firstn 200 test_lines))%nat
                       /\ (count_occ string_dec delta ":)"
                           + count_occ string_dec delta ":("
                           = length (firstn 200 test_lines))%nat
                       /\ Z.of_nat (count_occ string_dec delta ":(")
                          = mismatches (y_test s) (y_test_pred s)
               | inr _ => True
               end)) as H.
  { unfold test_cell. rewrite slice_to_200. do 2 (wp_step; wp_step).
    eapply wp_weaken; [apply test_loop_report|].
    cbn [y_test y_test_pred stdout length mismatches].
    intros [u|e] s (_ & _ & _ & _ & H); [|exact I].
    destruct H as (L1 & L2 & delta & Hd & Hl & Hc & Hm).
    repeat apply conj; auto. exists delta. repeat apply conj; auto.
    rewrite Hm by reflexivity. lia. }
  pose proof (wp_run _ _ _ _ _ H Hrun) as (L1 & L2 & delta & Hd & Hl & Hc & Hm).
  rewrite length_firstn in *. repeat apply conj; auto.
  exists delta. rewrite L1. auto.
Qed.

(** X2. When the validation cell completes, its own print statements have
    run five times for each misclassified utterance and not otherwise:
    the cell has made [5 * incorrect] print calls, [incorrect] of them the
    status print of a frown. *)
Theorem val_cell_prints_five_lines_per_miss
    (val_lines : list (list string)) (st st' : state) :
  val_cell label_list tokenizer estimator classes val_lines st = (inl tt, st') ->
  exists delta,
    stdout st' = stdout st ++ delta
    /\ Z.of_nat (length delta) = (5 * incorrect st')%Z
    /\ Z.of_nat (count_occ string_dec delta ":(") = incorrect st'.
Proof.
  intros Hrun.
  assert (wp (val_cell label_list tokenizer estimator classes val_lines) st
            (fun r s =>
               match r with
               | inl _ =>
                   exists delta,
                     stdout s = stdout st ++ delta
                     /\ Z.of_nat (length delta) = (5 * incorrect s)%Z
                     /\ Z.of_nat (count_occ string_dec delta ":(") = incorrect s
               | inr _ => True
               end)) as H.
  { unfold val_cell. do 3 (wp_step; wp_step).
    eapply wp_weaken; [apply val_loop_report|].
    cbn [incorrect stdout].
    intros [u|e] s (_ & _ & H); [|exact I].
    destruct H as (delta & Hd & Hl & Hc). exists delta.
    repeat apply conj; auto; lia. }
  exact (wp_run _ _ _ _ _ H Hrun).
Qed.

(** X3. However they end, the validation cell never changes [y_test] and
    [y_test_pred], the test cell never changes [y_val], [y_val_pred] and
    [incorrect], and both only add to what has been printed. *)
Theorem cells_keep_each_others_results
    (val_lines test_lines : list (list string)) (st : state) :
  (let sv := snd (val_cell label_list tokenizer estimator classes val_lines st) in
   y_test sv = y_test st /\ y_test_pred sv = y_test_pred st
   /\ exists delta, stdout sv = stdout st ++ delta)
  /\ (let s_t := snd (test_cell label_list tokenizer estimator classes test_lines st) in
      y_val s_t = y_val st /\ y_val_pred s_t = y_val_pred st
      /\ incorrect s_t = incorrect st
      /\ exists delta, stdout s_t = stdout st ++ delta).
Proof.
  split.
  - change (wp (val_cell label_list tokenizer estimator classes val_lines) st
              (fun _ sv => y_test sv = y_test st /\ y_test_pred sv = y_test_pred st
                           /\ exists delta, stdout sv = stdout st ++ delta)).
    unfold val_cell. do 3 (wp_step; wp_step).
    match goal with |- wp ?m ?s _ =>
      pose proof (val_loop_report (slice_to val_lines max_api_calls) s) as H1;
      pose proof (val_loop_stdout (slice_to val_lines max_api_calls) s) as H2
    end.
    unfold wp in *. cbn [y_test y_test_pred stdout] in *.
    destruct H1 as (F1 & F2 & _). destruct H2 as (delta & Hd & _). eauto.
  - change (wp (test_cell label_list tokenizer estimator classes test_lines) st
              (fun _ s_t => y_val s_t = y_val st /\ y_val_pred s_t = y_val_pred st
                            /\ incorrect s_t = incorrect st
                            /\ exists delta, stdout s_t = stdout st ++ delta)).
    unfold test_cell. do 2 (wp_step; wp_step).
    eapply wp_weaken; [apply test_loop_report|].
    cbn [y_val y_val_pred incorrect stdout].
    intros r s (F1 & F2 & F3 & F4 & _). auto.
Qed.

(** How far an iteration of the validation loop got when it raises. *)
Lemma val_body_failure row st :
  wp (val_body label_list tokenizer estimator classes row) st (fun r st' =>
    match r with
    | inl _ => True
    | inr _ =>
        incorrect st' = incorrect st /\
        ((y_val st' = y_val st /\ y_val_pred st' = y_val_pred st
          /\ stdout st' = stdout st)
         \/ (exists y, y_val st' = y_val st ++ [y]
                       /\ y_val_pred st' = y_val_pred st
                       /\ stdout st' = stdout st)
         \/ (exists y p delta,
                p <> y /\ y_val st' = y_val st ++ [y]
                /\ y_val_pred st' = y_val_pred st ++ [p]
                /\ stdout st' = stdout st ++ delta
                /\ (1 <= length delta <= 3)%nat))
    end).
Proof.
  unfold val_body, predict_utterance, print_details.
  destruct row as [|label [|utterance [|x r]]]; unfold unpack2.
  1, 2, 4: apply wp_bind; unfold wp; cbn; auto.
  repeat wp_step.
  all: try exact I.
  all: try congruence.
  all: split; [reflexivity|].
  all: try solve [ left; auto ].
  all: try solve [ right; left; eauto ].
  all: right; right; apply negb_true_iff, Z.eqb_neq in Heqb;
    exists n, z; rewrite <- ?app_assoc; cbn [app];
    eexists; repeat apply conj; try reflexivity; auto; cbn; lia.
Qed.

(** X4. The validation loop stops at the first row whose iteration
    raises: the rows after it are not processed.  The failing row leaves
    [incorrect] as it was, and either nothing of the row was recorded, or
    only its true label was appended (then [y_val] is one longer than
    [y_val_pred]), or label and prediction were both appended and one to
    three detail lines printed, but the mismatch was not counted (then
    [incorrect] is one less than the number of mismatches). *)
Theorem val_loop_stops_at_first_failure
    (rows1 : list (list string)) (row : list string) (rows2 : list (list string))
    (st st1 : state) (e : exn) (st2 : state) :
  tally st ->
  val_loop label_list tokenizer estimator classes rows1 st = (inl tt, st1) ->
  val_body label_list tokenizer estimator classes row st1 = (inr e, st2) ->
  val_loop label_list tokenizer estimator classes (rows1 ++ row :: rows2) st
  = (inr e, st2)
  /\ incorrect st2 = incorrect st1
  /\ ((y_val st2 = y_val st1 /\ y_val_pred st2 = y_val_pred st1
       /\ stdout st2 = stdout st1 /\ tally st2)
      \/ (y_val_pred st2 = y_val_pred st1 /\ stdout st2 = stdout st1
          /\ length (y_val st2) = S (length (y_val_pred st2)))
      \/ (exists delta,
             stdout st2 = stdout st1 ++ delta /\ (1 <= length delta <= 3)%nat
             /\ length (y_val st2) = length (y_val_pred st2)
             /\ incorrect st2 = (mismatches (y_val st2) (y_val_pred st2) - 1)%Z)).
Proof.
  intros Ht Hloop Hbody.
  pose proof (wp_run _ _ _ _ _ (val_loop_tally rows1 st Ht) Hloop) as [[Hlen Hinc] _].
  pose proof (wp_run _ _ _ _ _ (val_body_failure row st1) Hbody) as [Hi Hshape].
  split; [|split; [exact Hi|]].
  - unfold val_loop in *. rewrite for_each_app. unfold bind at 1.
    rewrite Hloop. cbn [for_each]. unfold bind. rewrite Hbody. reflexivity.
  - destruct Hshape as [(Ey & Ep & Eo)|[(y & Ey & Ep & Eo)|(y & p & delta & Hne & Ey & Ep & Eo & Hl)]].
    + left. unfold tally. rewrite Ey, Ep, Hi. auto.
    + right. left. rewrite Ey, Ep, app_one_length. repeat apply conj; auto. lia.
    + right. right. exists delta. rewrite Ey, Ep, !app_one_length, Hi.
      rewrite mismatches_app by exact Hlen.
      apply Z.eqb_neq in Hne. rewrite Hne. repeat apply conj; auto; lia.
Qed.










(** *** What the validation loop records *)

(** The library calls of a prediction see and change the world only. *)
Lemma predict_utterance_world utterance st :
  predict_utterance label_list tokenizer estimator utterance st
  = (fst (predict_from label_list tokenizer estimator (world st) utterance),
     set_world (snd (predict_from label_list tokenizer estimator (world st) utterance))
       st).
Proof.
  unfold predict_from, predict_utterance, bind, lib.
  cbn [world].
  repeat match goal with
         | |- context [let '(_, _) := ?f ?w in _] =>
             destruct (f w) as [[?|?] ?]; cbn [world set_world fst snd]
         end; reflexivity.
Qed.

Lemma wp_predict utterance st (Q : Z + exn -> state -> Prop) :
  (forall r w,
      predict_from label_list tokenizer estimator (world st) utterance = (r, w) ->
      Q r (set_world w st)) ->
  wp (predict_utterance label_list tokenizer estimator utterance) st Q.
Proof.
  intros H. unfold wp. rewrite predict_utterance_world. cbn [fst snd].
  apply H. apply surjective_pairing.
Qed.

(** A completed iteration appends [int(label)] and the prediction the
    library returned for the utterance, and leaves the world as the
    library left it. *)
Lemma val_body_records row st :
  wp (val_body label_list tokenizer estimator classes row) st (fun r st' =>
    match r with
    | inl _ =>
        exists y pred,
          label_recorded row y /\
          predict_from label_list tokenizer estimator (world st) (utterance_of row)
          = (inl pred, world st') /\
          y_val st' = y_val st ++ [y] /\
          y_val_pred st' = y_val_pred st ++ [pred]
    | inr _ => True
    end).
Proof.
  unfold val_body, print_details.
  destruct row as [|label [|utterance [|x r]]]; unfold unpack2.
  1, 2, 4: apply wp_bind; unfold wp; cbn; exact I.
  wp_step. wp_step. wp_step. wp_step; [|exact I].
  wp_step. wp_step. wp_step. wp_step. wp_step.
  apply wp_predict. intros [pred|e] w Hp; [|exact I].
  cbn [y_val y_val_pred incorrect y_test y_test_pred stdout world set_world].
  repeat wp_step.
  all: try exact I.
  all: exists n, pred; unfold label_recorded, utterance_of; cbn [nth];
    repeat apply conj; eauto.
Qed.

Lemma val_loop_records rows st :
  wp (val_loop label_list tokenizer estimator classes rows) st (fun r st' =>
    match r with
    | inl _ =>
        exists ys,
          Forall2 label_recorded rows ys /\
          y_val st' = y_val st ++ ys /\
          y_val_pred st'
          = y_val_pred st
            ++ predictions label_list tokenizer estimator
                 (map utterance_of rows) (world st) /\
          length (predictions label_list tokenizer estimator
                    (map utterance_of rows) (world st)) = length rows
    | inr _ => True
    end).
Proof.
  revert st. induction rows as [|row rows IH]; intros st.
  - unfold wp. cbn. exists []. rewrite !app_nil_r. repeat apply conj; auto.
  - unfold val_loop. cbn [for_each]. apply wp_bind.
    eapply wp_weaken; [apply val_body_records|].
    intros [u|e] st1 H; [|exact I].
    destruct H as (y & pred & Hy & Hp & Ey & Ep).
    eapply wp_weaken; [apply IH|].
    intros [u2|e2] st2 H2; [|exact I].
    destruct H2 as (ys & Hys & Ey2 & Ep2 & Hlen).
    exists (y :: ys). cbn [map predictions]. rewrite Hp.
    rewrite Ey2, Ep2, Ey, Ep, <- !app_assoc. cbn [app length].
    repeat apply conj; auto.
Qed.

Lemma mismatches_ahead ys ps y :
  length ys = length ps -> mismatches (ys ++ [y]) ps = mismatches ys ps.
Proof.
  revert ps. induction ys as [|y0 ys IH]; intros [|p0 ps] Hlen;
    try discriminate Hlen.
  - reflexivity.
  - cbn [app mismatches]. rewrite IH by (cbn in Hlen; lia). reflexivity.
Qed.

(** However the loop ends: the tally when it ran to the end, and what is
    left of it when an iteration raised. *)
Lemma val_loop_any_exit rows st :
  tally st ->
  wp (val_loop label_list tokenizer estimator classes rows) st (fun r st' =>
    match r with
    | inl _ => tally st'
    | inr _ => near_tally st'
    end).
Proof.
  revert st. induction rows as [|row rows IH]; intros st Ht.
  - unfold wp. cbn. exact Ht.
  - unfold val_loop. cbn [for_each]. apply wp_bind.
    pose proof (val_body_tally row st Ht) as H1.
    pose proof (val_body_failure row st) as H2.
    unfold wp in H1, H2. unfold wp at 1.
    destruct (fst _) as [u|e].
    + apply IH. apply H1.
    + destruct Ht as [Hlen Hinc]. destruct H2 as [Hi Hshape]. unfold near_tally.
      destruct Hshape as [(Ey & Ep & _)|[(y & Ey & Ep & _)|(y & p & delta & Hne & Ey & Ep & _)]];
        rewrite Ey, Ep, Hi.
      * split; lia.
      * rewrite app_one_length, mismatches_ahead by exact Hlen. split; lia.
      * rewrite !app_one_length, mismatches_app by exact Hlen.
        apply Z.eqb_neq in Hne. rewrite Hne. split; lia.
Qed.

(** C8, amended. After every completed iteration of the validation loop
    (the cell stopped after its [k]-th iteration, for any [k]; from the
    200th on that is the whole cell) [y_val] holds [int(label)] of each
    processed row and [y_val_pred] the prediction the library returned for
    its utterance, in order, one of each per row, and [incorrect] is the
    number of positions at which the two differ.  When an iteration
    raises, the loop ends at once with [y_val] at most one entry ahead of
    [y_val_pred] and [incorrect] at most one behind the number of
    differing positions. *)
Theorem val_loop_records_and_counts
    (k : nat) (val_lines : list (list string)) (st : state)
    (r : unit + exn) (st' : state) :
  val_cell_upto label_list tokenizer estimator classes k val_lines st = (r, st') ->
  match r with
  | inl _ =>
      Forall2 label_recorded (firstn k (firstn 200 val_lines)) (y_val st')
      /\ y_val_pred st'
         = predictions label_list tokenizer estimator
             (map utterance_of (firstn k (firstn 200 val_lines))) (world st)
      /\ length (y_val_pred st') = length (firstn k (firstn 200 val_lines))
      /\ incorrect st' = mismatches (y_val st') (y_val_pred st')
      /\ ((200 <= k)%nat ->
          val_cell label_list tokenizer estimator classes val_lines st = (inl tt, st'))
  | inr _ => near_tally st'
  end.
Proof.
  intros Hrun.
  assert (wp (val_cell_upto label_list tokenizer estimator classes k val_lines) st
            (fun r s =>
               match r with
               | inl _ =>
                   Forall2 label_recorded (firstn k (firstn 200 val_lines)) (y_val s)
                   /\ y_val_pred s
                      = predictions label_list tokenizer estimator
                          (map utterance_of (firstn k (firstn 200 val_lines)))
                          (world st)
                   /\ length (y_val_pred s) = length (firstn k (firstn 200 val_lines))
                   /\ incorrect s = mismatches (y_val s) (y_val_pred s)
               | inr _ => near_tally s
               end)) as H.
  { unfold val_cell_upto. change max_api_calls with 200%Z. rewrite slice_to_200.
    do 3 (wp_step; wp_step).
    match goal with |- wp ?m ?s0 _ =>
      pose proof (val_loop_records (firstn k (firstn 200 val_lines)) s0) as H1;
      pose proof (val_loop_any_exit (firstn k (firstn 200 val_lines)) s0
                    (conj eq_refl eq_refl)) as H2
    end.
    unfold wp in *. cbn [y_val y_val_pred world] in *.
    destruct (fst _) as [u|e]; [|exact H2].
    destruct H1 as (ys & Hys & Ey & Ep & Hlen). destruct H2 as [_ Hinc].
    cbn [app] in Ey, Ep. rewrite Ey, Ep, Hlen. rewrite <- Ey, <- Ep.
    repeat apply conj; auto. rewrite Ey. exact Hys. }
  pose proof (wp_run _ _ _ _ _ H Hrun) as H'.
  destruct r as [[]|e]; [|exact H'].
  destruct H' as (H1 & H2 & H3 & H4). repeat apply conj; auto.
  intros Hge. rewrite <- val_cell_upto_exit with (k := k) by exact Hge.
  exact Hrun.
Qed.

End WithLibrary.

(** The three theorems at work on the stand-in library: 200 equal rows
    followed by different ones, and the three demonstration rows. *)

Lemma rows_past_200_never_contribute_witness :
  let rows := repeat ["1"; "hi"] 200 in
  let lines := rows ++ [["2"; "never read"]] in
  let lines' := rows ++ [["not a number"]] in
  firstn 200 lines = firstn 200 lines' /\
  (predictions_run (L := Demo.demo_library) tt tt tt Demo.demo_classes
     lines lines Demo.demo_state
   = predictions_run (L := Demo.demo_library) tt tt tt Demo.demo_classes
       lines' lines' Demo.demo_state
   /\ (let st1 := snd (val_cell (L := Demo.demo_library) tt tt tt Demo.demo_classes
                         lines Demo.demo_state) in
       (length (y_val st1) <= 200)%nat /\ (length (y_val_pred st1) <= 200)%nat)
   /\ (let st2 := snd (test_cell (L := Demo.demo_library) tt tt tt Demo.demo_classes
                         lines Demo.demo_state) in
       (length (y_test st2) <= 200)%nat /\ (length (y_test_pred st2) <= 200)%nat)).
Proof.
  intros rows lines lines'.
  split; [reflexivity|].
  exact (rows_past_200_never_contribute (L := Demo.demo_library) tt tt tt
           Demo.demo_classes lines lines' lines lines' Demo.demo_state
           eq_refl eq_refl).
Defined.

Lemma val_loop_records_and_counts_witness :
  let st' := snd (val_cell_upto (L := Demo.demo_library) tt tt tt Demo.demo_classes
                    2 Demo.demo_rows Demo.demo_state) in
  val_cell_upto (L := Demo.demo_library) tt tt tt Demo.demo_classes
    2 Demo.demo_rows Demo.demo_state = (inl tt, st') /\
  y_val st' = [1; 0]%Z /\ y_val_pred st' = [1; 1]%Z /\ incorrect st' = 1%Z /\
  (Forall2 (label_recorded (L := Demo.demo_library))
     (firstn 2 (firstn 200 Demo.demo_rows)) (y_val st')
   /\ y_val_pred st'
      = predictions (L := Demo.demo_library) tt tt tt
          (map utterance_of (firstn 2 (firstn 200 Demo.demo_rows)))
          (world Demo.demo_state)
   /\ length (y_val_pred st') = length (firstn 2 (firstn 200 Demo.demo_rows))
   /\ incorrect st' = mismatches (y_val st') (y_val_pred st')
   /\ ((200 <= 2)%nat ->
       val_cell (L := Demo.demo_library) tt tt tt Demo.demo_classes
         Demo.demo_rows Demo.demo_state = (inl tt, st'))).
Proof.
  intros st'. split; [vm_compute; reflexivity|].
  split; [vm_compute; reflexivity|]. split; [vm_compute; reflexivity|].
  split; [vm_compute; reflexivity|].
  apply (val_loop_records_and_counts (L := Demo.demo_library) tt tt tt
           Demo.demo_classes 2 Demo.demo_rows Demo.demo_state (inl tt) st').
  vm_compute; reflexivity.
Defined.

(** C8, as stated, fails at a loop exit by exception: the second row has
    label 3, for which [classes] has no entry, and a prediction of 2; the
    mismatch is recorded in the lists, [classes[int(label)]] raises
    IndexError in the detail prints, and [incorrect] stays 0. *)
Lemma val_loop_exit_by_exception_miscounts :
  let rows := [["1"; "How long do I have left on my plan"]; ["3"; "hi"]] in
  let run := val_cell (L := Demo.demo_library) tt tt tt Demo.demo_classes rows
               Demo.demo_state in
  fst run = inr IndexError
  /\ y_val (snd run) = [1; 3]%Z /\ y_val_pred (snd run) = [1; 2]%Z
  /\ incorrect (snd run) = 0%Z
  /\ mismatches (y_val (snd run)) (y_val_pred (snd run)) = 1%Z
  /\ ~ tally (snd run).
Proof.
  intros rows run. repeat apply conj; try (vm_compute; reflexivity).
  intros [_ H]. vm_compute in H. discriminate H.
Qed.

Lemma val_loop_prints_frown_only_witness :
  let row := ["0"; "Why is my bill so high"] in
  let body := val_body (L := Demo.demo_library) tt tt tt Demo.demo_classes row
                Demo.demo_state in
  let loop := val_loop (L := Demo.demo_library) tt tt tt Demo.demo_classes
                Demo.demo_rows Demo.demo_state in
  body = (fst body, snd body) /\ loop = (fst loop, snd loop) /\
  stdout (snd body)
  = ["Utterance: Why is my bill so high"; "Actual   : billing";
     "Pred     : plan"; ":("; ""] /\
  ((exists delta,
       stdout (snd body) = stdout Demo.demo_state ++ delta /\ ~ In ":)" delta /\
       (fst body = inl tt ->
        exists label utterance y_true pred,
          row = [label; utterance] /\
          py_int (Library := Demo.demo_library) label = Some y_true /\
          y_val_pred (snd body) = y_val_pred Demo.demo_state ++ [pred] /\
          ((pred <> y_true /\
            exists actual predicted,
              delta = [("Utterance: " ++ utterance)%string;
                       ("Actual   : " ++ actual)%string;
                       ("Pred     : " ++ predicted)%string; ":("; ""])
           \/ (pred = y_true /\ delta = []))))
   /\ (exists delta,
          stdout (snd loop) = stdout Demo.demo_state ++ delta /\ ~ In ":)" delta)).
Proof.
  intros row body loop.
  split; [vm_compute; reflexivity|]. split; [vm_compute; reflexivity|].
  split; [vm_compute; reflexivity|].
  apply (val_loop_prints_frown_only (L := Demo.demo_library) tt tt tt
           Demo.demo_classes row Demo.demo_rows Demo.demo_state
           (fst body) (snd body) (fst loop) (snd loop)).
  all: vm_compute; reflexivity.
Defined.

(** The further theorems on the stand-in library. *)

Lemma test_cell_report_witness :
  let st' := snd (test_cell (L := Demo.demo_library) tt tt tt Demo.demo_classes
                    Demo.demo_rows Demo.demo_state) in
  test_cell (L := Demo.demo_library) tt tt tt Demo.demo_classes
    Demo.demo_rows Demo.demo_state = (inl tt, st') /\
  (length (y_test st') = Nat.min 200 (length Demo.demo_rows)
   /\ length (y_test_pred st') = Nat.min 200 (length Demo.demo_rows)
   /\ exists delta,
       stdout st' = stdout Demo.demo_state ++ delta
       /\ length delta = (5 * length (y_test st'))%nat
       /\ (count_occ string_dec delta ":)" + count_occ string_dec delta ":("
           = length (y_test st'))%nat
       /\ Z.of_nat (count_occ string_dec delta ":(")
          = mismatches (y_test st') (y_test_pred st')).
Proof.
  intros st'. split; [vm_compute; reflexivity|].
  apply (test_cell_report (L := Demo.demo_library) tt tt tt Demo.demo_classes
           Demo.demo_rows Demo.demo_state st').
  vm_compute; reflexivity.
Defined.

Lemma val_cell_prints_five_lines_per_miss_witness :
  let st' := snd (val_cell (L := Demo.demo_library) tt tt tt Demo.demo_classes
                    Demo.demo_rows Demo.demo_state) in
  val_cell (L := Demo.demo_library) tt tt tt Demo.demo_classes
    Demo.demo_rows Demo.demo_state = (inl tt, st') /\
  exists delta,
    stdout st' = stdout Demo.demo_state ++ delta
    /\ Z.of_nat (length delta) = (5 * incorrect st')%Z
    /\ Z.of_nat (count_occ string_dec delta ":(") = incorrect st'.
Proof.
  intros st'. split; [vm_compute; reflexivity|].
  apply (val_cell_prints_five_lines_per_miss (L := Demo.demo_library) tt tt tt
           Demo.demo_classes Demo.demo_rows Demo.demo_state st').
  vm_compute; reflexivity.
Defined.

Lemma val_loop_stops_at_first_failure_witness :
  let rows1 := [["1"; "How long do I have left on my plan"]] in
  let row := ["one"; "Why is my bill so high"] in
  let st1 := snd (val_loop (L := Demo.demo_library) tt tt tt Demo.demo_classes
                    rows1 Demo.demo_state) in
  let st2 := snd (val_body (L := Demo.demo_library) tt tt tt Demo.demo_classes
                    row st1) in
  tally Demo.demo_state /\
  val_loop (L := Demo.demo_library) tt tt tt Demo.demo_classes rows1 Demo.demo_state
  = (inl tt, st1) /\
  val_body (L := Demo.demo_library) tt tt tt Demo.demo_classes row st1
  = (inr ValueError, st2) /\
  val_loop (L := Demo.demo_library) tt tt tt Demo.demo_classes
    (rows1 ++ row :: Demo.demo_rows) Demo.demo_state = (inr ValueError, st2).
Proof.
  intros rows1 row st1 st2.
  assert (tally Demo.demo_state) as Ht by (split; reflexivity).
  split; [exact Ht|]. split; [vm_compute; reflexivity|].
  split; [vm_compute; reflexivity|].
  apply (val_loop_stops_at_first_failure (L := Demo.demo_library) tt tt tt
           Demo.demo_classes rows1 row Demo.demo_rows Demo.demo_state st1
           ValueError st2 Ht).
  all: vm_compute; reflexivity.
Defined.





End LoopFacts.

(** ** Every call made is a call site of the notebook *)

Module TraceFacts.
Import Ast Analysis Trace.

Lemma keep_app {A B} (f : A -> option B) (l1 l2 : list A) :
  keep f (l1 ++ l2) = keep f l1 ++ keep f l2.
Proof. unfold keep. apply flat_map_app. Qed.

Lemma callees_of_exprs_app (l1 l2 : list expr) :
  callees_of_exprs (l1 ++ l2) = callees_of_exprs l1 ++ callees_of_exprs l2.
Proof. apply keep_app. Qed.

Lemma callees_of_exprs_cons (e : expr) (l : list expr) :
  incl (callees_of_exprs l) (callees_of_exprs (e :: l)).
Proof. change (e :: l) with ([e] ++ l). rewrite callees_of_exprs_app. apply incl_appr, incl_refl. Qed.

Lemma callees_of_call f args kwargs (l : list expr) :
  callees_of_exprs (Call f args kwargs :: l) = callee_name f :: callees_of_exprs l.
Proof. reflexivity. Qed.

Lemma incl_snoc {A} (l m : list A) (a : A) :
  incl l m -> In a m -> incl (l ++ [a]) m.
Proof. intros H Ha. apply incl_app; [exact H|]. intros x [<-|[]]. exact Ha. Qed.

Create HintDb trace.
#[local] Hint Resolve incl_nil_l incl_refl incl_app incl_appl incl_appr incl_tl
  in_eq : trace.

(** The calls made while evaluating an expression are among its call
    sites. *)
Lemma eval_sound :
  (forall e t, eval e t -> incl t (callees_of_exprs (subexprs e)))
  /\ (forall es t, eval_all es t -> incl t (callees_of_exprs (flat_map subexprs es)))
  /\ (forall kws t, eval_kw kws t ->
        incl t (callees_of_exprs
                  (flat_map (fun kv => match kv with (_, v) => subexprs v end) kws))).
Proof.
  apply eval_mutind; intros; cbn [subexprs flat_map];
    rewrite ?callees_of_call, ?callees_of_exprs_app;
    try solve [ auto with trace
              | eapply incl_tran; [|apply callees_of_exprs_cons];
                rewrite ?callees_of_exprs_app; auto 6 with trace ].
  (* a call: the callee, the arguments, then the call itself *)
  rewrite !app_assoc. apply incl_snoc; [|apply in_eq].
  apply incl_tl. auto 6 with trace.
Qed.

Lemma eval_expr_sound e t :
  eval e t -> incl t (callees_of_exprs (subexprs e)).
Proof. apply eval_sound. Qed.

Lemma eval_target_sound t tr :
  eval_target t tr -> incl tr (callees_of_exprs (target_exprs t)).
Proof.
  destruct 1; cbn [target_exprs]; rewrite ?callees_of_exprs_app;
    auto using eval_expr_sound with trace.
Qed.

Lemma seq_callees_cons s ss :
  seq_callees (s :: ss) = stmt_callees s ++ seq_callees ss.
Proof.
  unfold seq_callees, stmt_callees. cbn [flat_map].
  rewrite flat_map_app, callees_of_exprs_app. reflexivity.
Qed.

Lemma stmt_callees_unfold s :
  stmt_callees s
  = callees_of_exprs (own_exprs s) ++
    match s with
    | Import _ _ | ImportFrom _ _ | Assign _ _ | AugAdd _ _ | ExprS _ => []
    | For _ _ body | With _ _ body | While _ body
    | FunctionDef _ _ body | ClassDef _ body => seq_callees body
    | If _ body orelse => seq_callees body ++ seq_callees orelse
    | Try body handlers => seq_callees body ++ seq_callees handlers
    end.
Proof.
  unfold stmt_callees, seq_callees.
  destruct s; cbn [substmts flat_map];
    rewrite ?flat_map_app, ?callees_of_exprs_app, ?app_nil_r; reflexivity.
Qed.

Lemma incl_firstn {A} (n : nat) (l m : list A) : incl l m -> incl (firstn n l) m.
Proof.
  intros H x Hx. apply H. rewrite <- (firstn_skipn n l). apply in_or_app. auto.
Qed.

(** The calls made while executing statements are among their call
    sites. *)
Lemma exec_sound :
  (forall s t, exec s t -> incl t (stmt_callees s))
  /\ (forall ss t, exec_seq ss t -> incl t (seq_callees ss))
  /\ (forall body t, exec_iter body t -> incl t (seq_callees body))
  /\ (forall c body t, exec_while_iter c body t ->
        incl t (callees_of_exprs (subexprs c) ++ seq_callees body)).
Proof.
  apply exec_mutind; intros;
    rewrite ?stmt_callees_unfold, ?seq_callees_cons; cbn [own_exprs];
    rewrite ?callees_of_exprs_app;
    repeat match goal with
           | H : eval _ _ |- _ => apply eval_expr_sound in H
           | H : eval_target _ _ |- _ => apply eval_target_sound in H
           end;
    try solve [ auto 6 with trace ].
  - (* try: a prefix of the body, then the handlers *)
    match goal with H : firstn _ _ = t |- _ => rewrite <- H end.
    apply incl_app; [|auto with trace].
    apply incl_firstn. auto with trace.
Qed.

(** Whatever a run of the notebook calls is one of its call sites. *)
Lemma runs_sound nb t :
  runs nb t -> incl t (seq_callees (flat_map code_of nb)).
Proof.
  intros (full & Hexec & Hprefix). rewrite <- Hprefix.
  apply incl_firstn. apply (proj1 (proj2 exec_sound)). exact Hexec.
Qed.

Lemma path_eqb_eq (p q : list string) : path_eqb p q = true -> p = q.
Proof.
  revert q. induction p as [|a p IH]; intros [|b q] H; try discriminate H.
  - reflexivity.
  - cbn in H. apply andb_true_iff in H. destruct H as [Hab Hpq].
    apply String.eqb_eq in Hab. rewrite (IH q Hpq), Hab. reflexivity.
Qed.

(** A property of callee names that holds at every call site holds of
    every call of every run. *)
Lemma runs_forall nb (ok : event -> bool) t ev :
  forallb ok (seq_callees (flat_map code_of nb)) = true ->
  runs nb t -> In ev t -> ok ev = true.
Proof.
  intros Hall Hrun Hin. rewrite forallb_forall in Hall.
  apply Hall. exact (runs_sound nb t Hrun ev Hin).
Qed.

End TraceFacts.

(** ** The notebook as a whole *)

Module NotebookFacts.
Import Ast Notebook Analysis Trace TraceFacts Steps Repo.

Lemma short_run_runs : runs notebook short_run.
Proof.
  unfold runs. eexists. split.
  - cbv [notebook flat_map code_of app
         cell_imports cell_sys_path cell_metrics_import cell_dirs
         cell_bert_imports cell_verbosity cell_max_api_calls cell_config
         cell_processor cell_label_list cell_tokenizer cell_model_fn
         cell_run_config cell_estimator cell_max_seq_length
         cell_sample_utterance cell_sample_features cell_sample_input_fn
         cell_sample_predict cell_csv_paths cell_classes cell_sample_print
         cell_read_val cell_val_loop cell_val_summary cell_read_test
         cell_test_loop cell_test_summary cell_eval_examples cell_eval
         cell_eval_print cell_test_examples cell_test_eval
         cell_test_eval_print featurize_stmts predict_next_stmt
         print_details_stmts read_csv_stmts summary_stmts examples_stmts
         evaluate_stmts print_result_stmts firstn skipn qual qual_from].
    repeat econstructor.
  - reflexivity.
Defined.

(** C3. In every execution of the notebook, to the end or until an
    exception stops it, the only operations invoked on the estimator are
    [predict] and [evaluate]; the name [estimator] is bound once, to the
    constructed TPUEstimator, and is used nowhere but as the receiver of
    those calls; [model_fn_builder] gets [None] for [num_train_steps] and
    [num_warmup_steps]; and the notebook defines no function or class and
    assigns to no attribute or item of any object. *)
Theorem estimator_only_predicts_and_evaluates :
  (forall t ev,
      runs notebook t -> In ev t -> hd_error ev = Some "estimator" ->
      ev = ["estimator"; "predict"] \/ ev = ["estimator"; "evaluate"])
  /\ methods_called_on "estimator" notebook
     = ["predict"; "predict"; "predict"; "evaluate"; "evaluate"]
  /\ stray_uses "estimator" ["predict"; "evaluate"] notebook = false
  /\ binding_sites "estimator" notebook = code_of cell_estimator
  /\ map (fun c => (kwarg "num_train_steps" (snd c), kwarg "num_warmup_steps" (snd c)))
         (calls_of ["clf"; "model_fn_builder"] notebook)
     = [(Some NoneC, Some NoneC)]
  /\ definitions notebook = 0
  /\ filter writes_into_object (all_stmts notebook) = []
  /\ mem_path ["setattr"] (callees notebook) = false.
Proof.
  split; [|repeat apply conj; vm_compute; reflexivity].
  intros t ev Hrun Hin Hhd.
  pose (ok := fun ev : event =>
                match ev with
                | "estimator" :: rest =>
                    (path_eqb rest ["predict"] || path_eqb rest ["evaluate"])%bool
                | _ => true
                end).
  assert (ok ev = true) as Hok.
  { apply (runs_forall notebook ok t ev); [vm_compute; reflexivity | exact Hrun | exact Hin]. }
  destruct ev as [|x rest]; [discriminate Hhd|].
  cbn in Hhd. injection Hhd as ->. cbn [ok] in Hok.
  apply orb_true_iff in Hok. destruct Hok as [H|H]; apply path_eqb_eq in H; subst rest; auto.
Qed.

Lemma estimator_only_predicts_and_evaluates_witness :
  runs notebook short_run /\
  In ["estimator"; "predict"] short_run /\
  hd_error ["estimator"; "predict"] = Some "estimator" /\
  (["estimator"; "predict"] = ["estimator"; "predict"]
   \/ ["estimator"; "predict"] = ["estimator"; "evaluate"]).
Proof.
  assert (In ["estimator"; "predict"] short_run) as Hin.
  { unfold short_run. repeat (first [left; reflexivity | right]). }
  split; [exact short_run_runs|]. split; [exact Hin|]. split; [reflexivity|].
  exact (proj1 estimator_only_predicts_and_evaluates short_run
           ["estimator"; "predict"] short_run_runs Hin eq_refl).
Defined.

(** C1, as stated, fails: the notebook is not self-contained. *)
Lemma notebook_not_self_contained : self_contained notebook_dir notebook = false.
Proof. vm_compute. reflexivity. Qed.

(** C1, amended. The notebook takes code and data from outside its own
    directory: with ["../.."] on [sys.path] it imports [perf_summary] and
    [print_perf_summary] from the repository's shared module
    [text_classification_benchmarks.metrics], and the three data files it
    opens are [classes.txt], [val.csv] and [test.csv] of the sibling
    example directory [src/text_classification_benchmarks/fastai], entry
    51 of the README.  No other import names a module of a package the
    notebook lies in. *)
Theorem notebook_reads_shared_code_and_sibling_data :
  sys_path_appends notebook = ["/Users/d777710/src/bert"; "../.."]
  /\ shared_modules notebook_dir notebook = ["text_classification_benchmarks.metrics"]
  /\ shared_names notebook_dir notebook = ["perf_summary"; "print_perf_summary"]
  /\ module_path notebook_dir "../.." "text_classification_benchmarks.metrics"
     = Some ["src"; "text_classification_benchmarks"; "metrics"]
  /\ data_paths_read notebook
     = ["../fastai/classes.txt"; "../fastai/val.csv"; "../fastai/test.csv"]
  /\ map (resolve notebook_dir) (data_paths_read notebook)
     = [ Some ["src"; "text_classification_benchmarks"; "fastai"; "classes.txt"];
         Some ["src"; "text_classification_benchmarks"; "fastai"; "val.csv"];
         Some ["src"; "text_classification_benchmarks"; "fastai"; "test.csv"] ]
  /\ (forall p, In p (data_paths_read notebook) ->
        reaches_outside notebook_dir p = true /\
        sibling_example notebook_dir p
        = Some ["src"; "text_classification_benchmarks"; "fastai"])
  /\ map number (filter (fun e => String.eqb (link e)
                                    "src/text_classification_benchmarks/fastai/")
                   text_classification_entries) = [51]
  /\ filter (fun m => negb (mem_str m (shared_modules notebook_dir notebook)))
       (imports notebook)
     = ["csv"; "numpy"; "os"; "sys"; "tensorflow";
        "modeling"; "run_classifier"; "tokenization"].
Proof.
  repeat apply conj; try (vm_compute; reflexivity).
  apply Forall_forall. vm_compute. repeat constructor.
Qed.

Lemma notebook_reads_shared_code_and_sibling_data_witness :
  In "../fastai/val.csv" (data_paths_read notebook) /\
  reaches_outside notebook_dir "../fastai/val.csv" = true /\
  sibling_example notebook_dir "../fastai/val.csv"
  = Some ["src"; "text_classification_benchmarks"; "fastai"].
Proof.
  assert (In "../fastai/val.csv" (data_paths_read notebook)) as Hin.
  { vm_compute. right. left. reflexivity. }
  split; [exact Hin|].
  exact (proj1 (proj2 (proj2 (proj2 (proj2 (proj2 (proj2
           notebook_reads_shared_code_and_sibling_data))))))
           "../fastai/val.csv" Hin).
Defined.

(** C2, as stated, fails: the processing steps of the notebook are not
    the five described steps, once each. *)
Lemma notebook_steps_not_as_described : only_described_steps notebook = false.
Proof. vm_compute. reflexivity. Qed.

(** C2, amended. Top to bottom the notebook loads the configuration from
    [bert_config.json], builds the processor, tokenizer, model function and
    estimator, and then several times over converts text to features of
    sequence length [max_seq_length = 128], runs the estimator and prints:
    the five described kinds of step first occur in the described order,
    but they repeat and interleave, and between them the notebook reads
    labels, class names and CSV rows from files and computes performance
    summaries. *)
Theorem notebook_steps :
  processing_steps notebook
  = [ LoadConfig; BuildModel; ReadData; BuildModel;
      ConvertFeatures; RunEstimator; ReadData; PrintOutput;
      ReadData; ConvertFeatures; RunEstimator; PrintOutput;
      ComputeMetrics; PrintOutput;
      ReadData; ConvertFeatures; RunEstimator; PrintOutput;
      ComputeMetrics; PrintOutput;
      ReadData; ConvertFeatures; RunEstimator; PrintOutput;
      ReadData; ConvertFeatures; RunEstimator; PrintOutput ]
  /\ filter is_described (first_occurrences [] (processing_steps notebook))
     = described_steps
  /\ filter (fun k => negb (is_described k))
       (first_occurrences [] (processing_steps notebook))
     = [ReadData; ComputeMetrics]
  /\ map (fun c => match fst c with
                   | [path] => const_string (string_constants notebook) path
                   | _ => None
                   end)
       (calls_of ["modeling"; "BertConfig"; "from_json_file"] notebook)
     = [Some "/Users/d777710/src/DeepLearning/dltemplate/pretrained_models/bert/uncased_L-12_H-768_A-12/bert_config.json"]
  /\ int_constants "max_seq_length" notebook = [128%Z]
  /\ Forall (fun c => length_argument "max_seq_length" 2 c = Some (Name "max_seq_length"))
       (calls_of ["clf"; "convert_examples_to_features"] notebook)
  /\ Forall (fun c => length_argument "seq_length" 1 c = Some (Name "max_seq_length"))
       (calls_of ["clf"; "input_fn_builder"] notebook)
  /\ filter (fun c => mem_path c [ ["estimator"; "predict"];
                                    ["estimator"; "evaluate"];
                                    ["print_perf_summary"] ])
       (callees notebook)
     = [ ["estimator"; "predict"]; ["estimator"; "predict"];
         ["print_perf_summary"]; ["estimator"; "predict"];
         ["print_perf_summary"]; ["estimator"; "evaluate"];
         ["estimator"; "evaluate"] ]
  /\ map (fun c => step_of c step_table)
       [ ["np"; "genfromtxt"]; ["tf"; "gfile"; "Open"]; ["csv"; "reader"];
         ["processor"; "get_labels"]; ["processor"; "get_dev_examples"];
         ["processor"; "get_test_examples"]; ["perf_summary"] ]
     = [ReadData; ReadData; ReadData; ReadData; ReadData; ReadData; ComputeMetrics].
Proof.
  repeat apply conj; try (vm_compute; reflexivity).
  all: vm_compute; repeat constructor.
Qed.

(** What the notebook and the README show of where the model code comes
    from; the files of the repository other than these two are not looked
    at.  The notebook defines no function, class or lambda.  The names
    [modeling], [clf] and [tokenization] are bound by plain imports of the
    top-level modules [modeling], [run_classifier] and [tokenization], in a
    cell after the one that appends [/Users/d777710/src/bert] to
    [sys.path]; that path is absolute, is appended before ["../.."] and
    does not lie under the directory the repository is checked out in
    (read off [DATA_DIR]).  Every call that loads the configuration,
    builds the model or converts features goes through those modules or
    [tensorflow], and the README's BERT entry links to another repository. *)
Lemma notebook_imports_bert_modules :
  definitions notebook = 0
  /\ lookup "modeling" (bindings notebook) = Some "modeling"
  /\ lookup "clf" (bindings notebook) = Some "run_classifier"
  /\ lookup "tokenization" (bindings notebook) = Some "tokenization"
  /\ sys_path_appends notebook = ["/Users/d777710/src/bert"; "../.."]
  /\ first_cell (stmt_calls ["sys"; "path"; "append"]) notebook = Some 3
  /\ map (fun m => first_cell (stmt_imports m) notebook)
       ["modeling"; "run_classifier"; "tokenization"]
     = [Some 6; Some 6; Some 6]
  /\ starts_with_slash "/Users/d777710/src/bert" = true
  /\ lookup "DATA_DIR" (string_constants notebook)
     = Some "/Users/d777710/src/DeepLearning/dltemplate/src/text_classification_benchmarks/fastai"
  /\ checkout_root
       "/Users/d777710/src/DeepLearning/dltemplate/src/text_classification_benchmarks/fastai"
       ["src"; "text_classification_benchmarks"; "fastai"]
     = Some "/Users/d777710/src/DeepLearning/dltemplate"
  /\ String.prefix "/Users/d777710/src/DeepLearning/dltemplate"
       "/Users/d777710/src/bert" = false
  /\ forallb (fun c =>
                match lookup (root c) (bindings notebook) with
                | Some m => mem_str m ["modeling"; "run_classifier";
                                       "tokenization"; "tensorflow"]
                | None => false
                end)
       (filter (fun c => match step_of c step_table with
                         | LoadConfig | BuildModel | ConvertFeatures => true
                         | _ => false
                         end) (callees notebook)) = true
  /\ map (fun e => (link e, entry_dir e))
       (filter (fun e => Nat.eqb (number e) 60) text_classification_entries)
     = [("https://github.com/markmo/bert", None)].
Proof. repeat apply conj; vm_compute; reflexivity. Qed.



(** What can be said statically about concurrency and failure handling:
    the notebook imports no module for threads or processes, calls none of
    the process functions of [os], and has no [try]. *)
Lemma notebook_starts_no_thread_itself :
  filter (fun m => mem_str (head_component m) concurrency_modules) (imports notebook) = []
  /\ filter (fun c => mem_path c process_calls) (callees notebook) = []
  /\ filter (fun s => match s with Try _ _ => true | _ => false end)
       (all_stmts notebook) = [].
Proof. repeat apply conj; vm_compute; reflexivity. Qed.

End NotebookFacts.

(** ** Printing an evaluation result *)

Module ResultsFacts.
Import Results.

Lemma leb_trans (a b c : string) :
  String.leb a b = true -> String.leb b c = true -> String.leb a c = true.
Proof.
  unfold String.leb. revert b c.
  induction a as [|x a IH]; intros [|y b] [|z c]; cbn; try congruence; auto.
  unfold Ascii.compare.
  destruct (N.compare_spec (N_of_ascii x) (N_of_ascii y)),
           (N.compare_spec (N_of_ascii y) (N_of_ascii z)),
           (N.compare_spec (N_of_ascii x) (N_of_ascii z));
    try congruence; try lia; eauto.
Qed.

Lemma leb_refl (a : string) : String.leb a a = true.
Proof. destruct (String.leb_total a a); assumption. Qed.

Lemma insert_perm k l : Permutation (insert k l) (k :: l).
Proof.
  induction l as [|x l IH]; cbn; [reflexivity|].
  destruct (String.leb k x); [reflexivity|].
  rewrite IH. apply perm_swap.
Qed.

Lemma sorted_perm l : Permutation (sorted l) l.
Proof.
  induction l as [|k l IH]; cbn; [reflexivity|].
  rewrite insert_perm. apply perm_skip, IH.
Qed.

Lemma insert_sorted k l :
  StronglySorted (fun a b => String.leb a b = true) l ->
  StronglySorted (fun a b => String.leb a b = true) (insert k l).
Proof.
  induction 1 as [|x l Hs IH Hx]; cbn.
  - constructor; constructor.
  - destruct (String.leb k x) eqn:E.
    + constructor; [constructor; assumption|].
      constructor; [exact E|].
      eapply Forall_impl; [|exact Hx]. intros b Hb. eapply leb_trans; eassumption.
    + constructor; [exact IH|].
      eapply Permutation_Forall; [symmetry; apply insert_perm|].
      constructor; [|exact Hx].
      destruct (String.leb_total k x) as [H|H]; congruence.
Qed.

Lemma sorted_sorted l : StronglySorted (fun a b => String.leb a b = true) (sorted l).
Proof.
  induction l as [|k l IH]; cbn; [constructor|]. apply insert_sorted, IH.
Qed.

Lemma sorted_unique l1 l2 :
  StronglySorted (fun a b => String.leb a b = true) l1 ->
  StronglySorted (fun a b => String.leb a b = true) l2 ->
  Permutation l1 l2 -> l1 = l2.
Proof.
  intros H1. revert l2. induction H1 as [|a l1 Hs1 IH Ha]; intros l2 H2 Hp.
  - apply Permutation_nil in Hp. congruence.
  - destruct H2 as [|b l2 Hs2 Hb].
    + symmetry in Hp. apply Permutation_nil in Hp. discriminate.
    + assert (a = b) as ->.
      { assert (In a (b :: l2)) as Hin1 by (eapply Permutation_in; [exact Hp|left; reflexivity]).
        assert (In b (a :: l1)) as Hin2 by (eapply Permutation_in; [symmetry; exact Hp|left; reflexivity]).
        rewrite Forall_forall in Ha, Hb.
        destruct Hin1 as [->|Hin1]; [reflexivity|].
        destruct Hin2 as [->|Hin2]; [reflexivity|].
        apply String.leb_antisym; auto. }
      f_equal. apply IH; [exact Hs2|]. eapply Permutation_cons_inv. exact Hp.
Qed.

Lemma sorted_of_perm l1 l2 : Permutation l1 l2 -> sorted l1 = sorted l2.
Proof.
  intros Hp. apply sorted_unique; try apply sorted_sorted.
  rewrite !sorted_perm. exact Hp.
Qed.

Section Dict.
Variable V : Type.
Variable show : V -> string.

Lemma getitem_in (d : dict V) k : In k (keys V d) -> exists v, getitem V d k = Some v /\ In (k, v) d.
Proof.
  induction d as [|[k' v'] d IH]; cbn; [tauto|].
  intros H. destruct (String.eqb k k') eqn:E.
  - apply String.eqb_eq in E. subst. eauto.
  - destruct H as [H|H]; [subst; rewrite String.eqb_refl in E; discriminate|].
    destruct (IH H) as (v & Hv & Hin). eauto.
Qed.

Lemma getitem_nodup (d : dict V) k v :
  NoDup (keys V d) -> In (k, v) d -> getitem V d k = Some v.
Proof.
  induction d as [|[k' v'] d IH]; cbn; [tauto|].
  intros Hnd [H|H].
  - injection H as -> ->. rewrite String.eqb_refl. reflexivity.
  - inversion Hnd as [|? ? Hnotin Hnd']; subst.
    destruct (String.eqb k k') eqn:E.
    + apply String.eqb_eq in E. subst. exfalso. apply Hnotin.
      change k' with (fst (k', v)). apply in_map. exact H.
    + apply IH; assumption.
Qed.

Lemma getitem_perm (d d' : dict V) k :
  NoDup (keys V d) -> Permutation d d' -> getitem V d k = getitem V d' k.
Proof.
  intros Hnd Hp.
  assert (NoDup (keys V d')) as Hnd'.
  { eapply Permutation_NoDup; [|exact Hnd]. apply Permutation_map. exact Hp. }
  destruct (getitem V d k) as [v|] eqn:E.
  - symmetry. apply getitem_nodup; [exact Hnd'|].
    eapply Permutation_in; [exact Hp|].
    assert (In k (keys V d)) as Hk.
    { clear -E. induction d as [|[k' v'] d IH]; cbn in *; [discriminate|].
      destruct (String.eqb k k') eqn:E'; [apply String.eqb_eq in E'; auto|auto]. }
    destruct (getitem_in d k Hk) as (v0 & Hv0 & Hin). congruence.
  - destruct (getitem V d' k) as [v'|] eqn:E'; [|reflexivity].
    assert (In k (keys V d')) as Hk.
    { clear -E'. induction d' as [|[k' v''] d' IH]; cbn in *; [discriminate|].
      destruct (String.eqb k k') eqn:E''; [apply String.eqb_eq in E''; auto|auto]. }
    assert (In k (keys V d)) as Hk'.
    { eapply Permutation_in; [|exact Hk]. apply Permutation_map. symmetry. exact Hp. }
    destruct (getitem_in d k Hk') as (v0 & Hv0 & _). congruence.
Qed.

Lemma print_keys_ext (d d' : dict V) ks :
  (forall k, getitem V d k = getitem V d' k) ->
  print_keys V show d ks = print_keys V show d' ks.
Proof.
  intros H. induction ks as [|k ks IH]; cbn; [reflexivity|].
  rewrite H, IH. reflexivity.
Qed.

Lemma print_keys_known (d : dict V) ks :
  incl ks (keys V d) ->
  snd (print_keys V show d ks) = Done
  /\ Forall2 (fun k line => exists v, In (k, v) d /\ getitem V d k = Some v
                                      /\ line = format_line V show k v)
       ks (fst (print_keys V show d ks)).
Proof.
  induction ks as [|k ks IH]; intros Hincl; cbn.
  - split; [reflexivity|constructor].
  - destruct (getitem_in d k (Hincl k (or_introl eq_refl))) as (v & Hv & Hin).
    rewrite Hv. destruct IH as [IH1 IH2].
    { intros x Hx. apply Hincl. right. exact Hx. }
    destruct (print_keys V show d ks) as [lines o]. cbn in *.
    split; [exact IH1|]. constructor; eauto.
Qed.

(** X8. Printing an evaluation result never raises KeyError and prints
    one line per key of the dict, in ascending order of the keys; the line
    of key [k] is ['  k = v'] for the value [v] stored under [k]. *)
Theorem print_result_lines (d : dict V) :
  snd (print_result V show d) = Done
  /\ length (fst (print_result V show d)) = length d
  /\ StronglySorted (fun a b => String.leb a b = true) (sorted (keys V d))
  /\ Permutation (sorted (keys V d)) (keys V d)
  /\ Forall2 (fun k line => exists v, In (k, v) d /\ getitem V d k = Some v
                                      /\ line = format_line V show k v)
       (sorted (keys V d)) (fst (print_result V show d)).
Proof.
  unfold print_result.
  destruct (print_keys_known d (sorted (keys V d))) as [H1 H2].
  { intros k Hk. eapply Permutation_in; [apply sorted_perm|exact Hk]. }
  repeat apply conj; auto using sorted_sorted, sorted_perm.
  apply Forall2_length in H2. rewrite <- H2.
  rewrite (Permutation_length (sorted_perm _)). unfold keys. apply length_map.
Qed.

(** X9. What is printed for an evaluation result does not depend on the
    order in which the dict holds its entries. *)
Theorem print_result_order_independent (d d' : dict V) :
  NoDup (keys V d) -> Permutation d d' ->
  print_result V show d = print_result V show d'.
Proof.
  intros Hnd Hp. unfold print_result.
  rewrite (sorted_of_perm (keys V d) (keys V d')) by (apply Permutation_map; exact Hp).
  apply print_keys_ext. intros k. apply getitem_perm; assumption.
Qed.

End Dict.

Lemma print_result_order_independent_witness :
  let d := [("loss", "2.05"); ("eval_accuracy", "0.72"); ("global_step", "0")] in
  let d' := [("global_step", "0"); ("loss", "2.05"); ("eval_accuracy", "0.72")] in
  NoDup (keys string d) /\ Permutation d d' /\
  print_result string (fun v => v) d = print_result string (fun v => v) d'.
Proof.
  intros d d'.
  assert (NoDup (keys string d)) as Hnd.
  { cbn. repeat constructor; cbn; intuition discriminate. }
  assert (Permutation d d') as Hp.
  { unfold d, d'. eapply perm_trans; [apply perm_skip, perm_swap|apply perm_swap]. }
  split; [exact Hnd|]. split; [exact Hp|].
  exact (print_result_order_independent string (fun v => v) d d' Hnd Hp).
Defined.

End ResultsFacts.

(** ** The order of calls in every run *)

Module OrderFacts.
Import Ast Notebook Analysis Trace TraceFacts Straight.

Lemma app_opt_some a b t :
  app_opt a b = Some t -> exists ta tb, a = Some ta /\ b = Some tb /\ t = ta ++ tb.
Proof.
  destruct a as [ta|], b as [tb|]; cbn; try discriminate.
  intros H. injection H as <-. eauto.
Qed.

Ltac split_opt :=
  repeat match goal with
         | H : app_opt _ _ = Some _ |- _ =>
             apply app_opt_some in H; destruct H as (? & ? & ? & ? & ?)
         | H : Some _ = Some _ |- _ => inversion H; clear H
         end.

(** Straight-line code has no other calls than the computed ones. *)
Lemma eval_straight :
  (forall e t, eval e t -> forall t', straight_expr e = Some t' -> t' = t)
  /\ (forall es t, eval_all es t ->
        forall t', option_concat (map straight_expr es) = Some t' -> t' = t)
  /\ (forall kws t, eval_kw kws t ->
        forall t', option_concat
                     (map (fun kv => match kv with (_, v) => straight_expr v end) kws)
                   = Some t' -> t' = t).
Proof.
  apply eval_mutind; intros; cbn [straight_expr map option_concat fold_right] in *;
    try discriminate; split_opt; subst;
    repeat match goal with
           | IH : forall t', ?x = Some t' -> _, H : ?x = Some _ |- _ =>
               specialize (IH _ H); subst
           end;
    try reflexivity; auto.
Qed.

Lemma eval_target_straight t tr :
  eval_target t tr -> forall t', straight_target t = Some t' -> t' = tr.
Proof.
  destruct 1; cbn; intros t' Hs; split_opt; subst;
    repeat match goal with
           | He : eval ?e _, H : straight_expr ?e = Some _ |- _ =>
               apply (proj1 eval_straight _ _ He) in H; subst
           end; try congruence; reflexivity.
Qed.

Lemma exec_straight :
  (forall s t, exec s t -> forall t', straight_stmt s = Some t' -> t' = t)
  /\ (forall ss t, exec_seq ss t -> forall t', straight_seq ss = Some t' -> t' = t)
  /\ (forall body t, exec_iter body t -> True)
  /\ (forall c body t, exec_while_iter c body t -> True).
Proof.
  apply exec_mutind; intros; try exact I;
    unfold straight_seq in *;
    cbn [straight_stmt map option_concat fold_right] in *;
    try discriminate; split_opt; subst;
    repeat match goal with
           | He : eval ?e _, H : straight_expr ?e = Some _ |- _ =>
               apply (proj1 eval_straight _ _ He) in H; subst
           | He : eval_target ?e _, H : straight_target ?e = Some _ |- _ =>
               apply (eval_target_straight _ _ He) in H; subst
           | IH : forall t', ?x = Some t' -> _, H : ?x = Some _ |- _ =>
               specialize (IH _ H); subst
           end;
    try congruence; try reflexivity; auto.
Qed.

Lemma exec_seq_app (a b : list stmt) t :
  exec_seq (a ++ b) t -> exists ta tb, t = ta ++ tb /\ exec_seq a ta /\ exec_seq b tb.
Proof.
  revert t. induction a as [|s a IH]; intros t H.
  - exists [], t. repeat split; [constructor | exact H].
  - cbn in H. inversion H as [|s' ss' t1 t2 Hs Hss]; subst.
    destruct (IH _ Hss) as (ta & tb & -> & Ha & Hb).
    exists (t1 ++ ta), tb. rewrite app_assoc. repeat split; [constructor; assumption | exact Hb].
Qed.

(** A run of cells [a] followed by cells [b]: a run of [a] to its end and
    then a run of [b], possibly cut short. *)
Lemma runs_split (nb : list cell) (n : nat) t :
  runs nb t ->
  exists ta tb rest,
    exec_seq (flat_map code_of (firstn n nb)) ta
    /\ exec_seq (flat_map code_of (skipn n nb)) tb
    /\ t ++ rest = ta ++ tb.
Proof.
  intros (full & Hexec & Hprefix).
  rewrite <- (firstn_skipn n nb), flat_map_app in Hexec.
  destruct (exec_seq_app _ _ _ Hexec) as (ta & tb & -> & Ha & Hb).
  exists ta, tb, (skipn (length t) (ta ++ tb)). repeat split; auto.
  rewrite <- Hprefix at 1. apply firstn_skipn.
Qed.

(** If the part of a list before [pre ++ _] ends has no element like
    [ev], then [ev] comes after [pre]. *)
Lemma occurs_after {A} (P : A -> bool) (pre x l1 : list A) (ev : A) (rest : list A) :
  pre ++ x = l1 ++ ev :: rest -> P ev = true -> forallb (fun a => negb (P a)) pre = true ->
  exists more, l1 = pre ++ more.
Proof.
  intros E Hev Hpre.
  apply app_eq_app in E. destruct E as (l & [[E1 E2]|[E1 E2]]).
  - destruct l as [|a l].
    + exists []. rewrite app_nil_r in E1. rewrite app_nil_r. congruence.
    + cbn in E2. injection E2 as <- _.
      rewrite forallb_forall in Hpre.
      assert (In ev pre) as Hin by (rewrite E1; apply in_or_app; right; left; reflexivity).
      apply Hpre in Hin. rewrite Hev in Hin. discriminate.
  - exists l. exact E1.
Qed.

(** Every run of the notebook and [first_calls] agree as far as both go. *)
Lemma runs_first_calls t :
  runs notebook t -> exists rest more, t ++ rest = first_calls ++ more.
Proof.
  intros Hrun.
  destruct (runs_split notebook 23 t Hrun) as (ta & tb & rest & Ha & _ & E).
  assert (straight_seq (flat_map code_of (firstn 23 notebook)) = Some first_calls) as Hs
    by (vm_compute; reflexivity).
  apply (proj1 (proj2 exec_straight) _ _ Ha) in Hs. subst ta. eauto.
Qed.

(** X10. Every run of the notebook starts with the same 20 calls in the
    same order, from the two [sys.path.append] over the configuration, the
    model function and the estimator to [np.genfromtxt], or it is stopped
    by an exception among them. *)
Theorem every_run_starts_alike (t : list event) :
  runs notebook t ->
  firstn (length t) first_calls = t \/ exists more, t = first_calls ++ more.
Proof.
  intros Hrun. destruct (runs_first_calls t Hrun) as (rest & more & E).
  destruct (Nat.le_gt_cases (length t) (length first_calls)) as [Hle|Hgt].
  - left. apply (f_equal (firstn (length t))) in E.
    rewrite firstn_app, Nat.sub_diag, firstn_all, firstn_O, app_nil_r in E.
    rewrite firstn_app in E.
    replace (length t - length first_calls)%nat with 0%nat in E by lia.
    rewrite firstn_O, app_nil_r in E. congruence.
  - right. apply app_eq_app in E. destruct E as (l & [[E1 E2]|[E1 E2]]).
    + exists l. exact E1.
    + apply (f_equal (@length _)) in E1. rewrite length_app in E1. lia.
Qed.

Lemma every_run_starts_alike_witness :
  runs notebook short_run /\
  (firstn (length short_run) first_calls = short_run
   \/ exists more, short_run = first_calls ++ more).
Proof.
  split; [exact NotebookFacts.short_run_runs|].
  exact (every_run_starts_alike short_run NotebookFacts.short_run_runs).
Defined.

Lemma incl_by_check (l m : list event) :
  forallb (fun x => mem_path x m) l = true -> incl l m.
Proof.
  intros H x Hx. rewrite forallb_forall in H. specialize (H x Hx).
  unfold mem_path in H. apply existsb_exists in H. destruct H as (y & Hy & E).
  apply path_eqb_eq in E. subst. exact Hy.
Qed.

(** Once a call has been made that only the cells from the [n]-th on
    contain, every later call is a call site of those cells. *)
Lemma later_cells_only (nb : list cell) (n : nat) t l1 y l2 :
  runs nb t -> t = l1 ++ y :: l2 ->
  ~ In y (seq_callees (flat_map code_of (firstn n nb))) ->
  incl l2 (seq_callees (flat_map code_of (skipn n nb))).
Proof.
  intros Hrun -> Hy.
  destruct (runs_split nb n _ Hrun) as (ta & tb & rest & Ha & Hb & E).
  apply (proj1 (proj2 exec_sound)) in Ha, Hb.
  rewrite <- app_assoc in E. cbn [app] in E. symmetry in E.
  intros x Hx. apply Hb.
  apply app_eq_app in E. destruct E as (l & [[E1 E2]|[E1 E2]]).
  - destruct l as [|a l].
    + cbn in E2. rewrite <- E2. right. apply in_or_app. left. exact Hx.
    + cbn in E2. injection E2 as <- _. exfalso. apply Hy, Ha.
      rewrite E1. apply in_or_app. right. left. reflexivity.
  - rewrite E2. apply in_or_app. right. right. apply in_or_app. left. exact Hx.
Qed.

Ltac unfold_notebook :=
  cbv [notebook flat_map code_of app
       cell_imports cell_sys_path cell_metrics_import cell_dirs
       cell_bert_imports cell_verbosity cell_max_api_calls cell_config
       cell_processor cell_label_list cell_tokenizer cell_model_fn
       cell_run_config cell_estimator cell_max_seq_length
       cell_sample_utterance cell_sample_features cell_sample_input_fn
       cell_sample_predict cell_csv_paths cell_classes cell_sample_print
       cell_read_val cell_val_loop cell_val_summary cell_read_test
       cell_test_loop cell_test_summary cell_eval_examples cell_eval
       cell_eval_print cell_test_examples cell_test_eval
       cell_test_eval_print featurize_stmts predict_next_stmt
       print_details_stmts read_csv_stmts summary_stmts examples_stmts
       evaluate_stmts print_result_stmts firstn skipn qual qual_from].

Lemma quiet_run_runs : runs notebook quiet_run.
Proof.
  unfold runs. eexists. split.
  - unfold_notebook. repeat econstructor.
  - reflexivity.
Defined.

(** X11. In every run of the notebook, a call on the estimator comes only
    after the configuration has been loaded, the model function built, the
    TPUEstimator constructed and an input function built. *)
Theorem estimator_built_before_use (t l1 : list event) (ev : event) (l2 : list event) :
  runs notebook t -> t = l1 ++ ev :: l2 -> hd_error ev = Some "estimator" ->
  In ["modeling"; "BertConfig"; "from_json_file"] l1
  /\ In ["clf"; "model_fn_builder"] l1
  /\ In ["tf"; "contrib"; "tpu"; "TPUEstimator"] l1
  /\ In ["clf"; "input_fn_builder"] l1.
Proof.
  intros Hrun -> Hhd.
  destruct (runs_first_calls _ Hrun) as (rest & more & E).
  rewrite <- app_assoc in E. cbn [app] in E. symmetry in E.
  change first_calls with (firstn 18 first_calls ++ skipn 18 first_calls) in E.
  rewrite <- app_assoc in E.
  destruct (occurs_after on_estimator _ _ _ _ _ E) as (more' & ->).
  { destruct ev as [|x ev]; [discriminate|]. cbn in Hhd. injection Hhd as ->. reflexivity. }
  { vm_compute. reflexivity. }
  repeat apply conj; apply in_or_app; left; vm_compute; tauto.
Qed.

Lemma estimator_built_before_use_witness :
  let l1 := firstn 18 short_run in
  runs notebook short_run /\
  short_run = l1 ++ ["estimator"; "predict"] :: [] /\
  hd_error ["estimator"; "predict"] = Some "estimator" /\
  (In ["modeling"; "BertConfig"; "from_json_file"] l1
   /\ In ["clf"; "model_fn_builder"] l1
   /\ In ["tf"; "contrib"; "tpu"; "TPUEstimator"] l1
   /\ In ["clf"; "input_fn_builder"] l1).
Proof.
  intros l1. split; [exact NotebookFacts.short_run_runs|].
  split; [reflexivity|]. split; [reflexivity|].
  exact (estimator_built_before_use short_run l1 ["estimator"; "predict"] []
           NotebookFacts.short_run_runs eq_refl eq_refl).
Defined.

(** X12. In every run of the notebook, once [estimator.evaluate] has been
    called the run makes only the calls of the evaluation cells: no
    further [estimator.predict], no [perf_summary], and no file is opened
    with [tf.gfile.Open], [csv.reader] or [np.genfromtxt]. *)
Theorem after_evaluate_only_evaluation_calls (t l1 l2 : list event) :
  runs notebook t -> t = l1 ++ ["estimator"; "evaluate"] :: l2 ->
  incl l2 evaluation_calls
  /\ ~ In ["estimator"; "predict"] l2
  /\ ~ In ["perf_summary"] l2
  /\ ~ In ["tf"; "gfile"; "Open"] l2
  /\ ~ In ["csv"; "reader"] l2
  /\ ~ In ["np"; "genfromtxt"] l2.
Proof.
  intros Hrun E.
  assert (incl l2 evaluation_calls) as Hincl.
  { eapply incl_tran.
    - apply (later_cells_only notebook 30 t l1 _ l2 Hrun E).
      intros Hin.
      assert (forallb (fun c => negb (path_eqb c ["estimator"; "evaluate"]))
                (seq_callees (flat_map code_of (firstn 30 notebook))) = true) as Hno
        by (vm_compute; reflexivity).
      rewrite forallb_forall in Hno. specialize (Hno _ Hin). discriminate Hno.
    - apply incl_by_check. vm_compute. reflexivity. }
  split; [exact Hincl|].
  repeat apply conj; intros Hin; apply Hincl in Hin; vm_compute in Hin;
    repeat (destruct Hin as [Hin|Hin]; [discriminate Hin|]); exact Hin.
Qed.

Lemma after_evaluate_only_evaluation_calls_witness :
  let l1 := firstn 33 quiet_run in
  let l2 := [ ["eval_result"; "keys"]; ["sorted"] ] in
  runs notebook quiet_run /\
  quiet_run = l1 ++ ["estimator"; "evaluate"] :: l2 /\
  incl l2 evaluation_calls.
Proof.
  intros l1 l2. split; [exact quiet_run_runs|]. split; [reflexivity|].
  exact (proj1 (after_evaluate_only_evaluation_calls quiet_run l1 l2
                  quiet_run_runs eq_refl)).
Defined.

End OrderFacts.

(** ** Names are bound before they are read *)

Module NamesFacts.
Import Ast Notebook Analysis Names.

(** X13. In the order of the notebook, top to bottom, every name a
    statement reads has been bound by an earlier statement that ran to its
    end (an assignment, an import, a loop or [with] variable), the
    builtins [print], [int], [len], [next], [sorted] and [str] aside, and
    nothing bound only inside a loop body or branch is read after it. *)
Theorem names_bound_before_read :
  unbound_reads notebook = [].
Proof. vm_compute. reflexivity. Qed.

End NamesFacts.
